(** * The FFmpeg conversion service: request handlers and their contracts

    The repository holds two builds of one Express server:
    - the unnamed source file (the later build), and
    - [packages/index.js] (the earlier build).
    Both register the same routes; where the two differ the embedding takes
    the [Build] as a parameter.  The handlers are state-passing functions over
    a [World] (disk, spawned processes, pending timers, console).  What the
    runtime decides is an input: the events the spawned child emits, the clock,
    and how a file transfer ends.  Callbacks run in the order Node would run
    them; [fs.unlink] is taken at the moment it is called. *)

From stdpp Require Import base gmap list strings pretty.
From Stdlib Require Import ZArith Lia Ascii.

Local Open Scope Z_scope.

(** ** JavaScript strings and arrays *)

Module Js.

Definition LF : ascii := "010"%char.

(** The string ['\n']. *)
Definition NL : string := String LF EmptyString.

(** [s.split(sep)] with a one-character separator: never empty, the empty
    string gives one empty piece. *)
Fixpoint split (sep : ascii) (s : string) : list string :=
  match s with
  | EmptyString => [EmptyString]
  | String c s' =>
      if Ascii.eqb c sep then EmptyString :: split sep s'
      else match split sep s' with
           | [] => [String c EmptyString]
           | piece :: rest => String c piece :: rest
           end
  end.

(** [a.join(sep)] *)
Fixpoint join (sep : string) (a : list string) : string :=
  match a with
  | [] => ""
  | [x] => x
  | x :: rest => x +:+ sep +:+ join sep rest
  end.

(** [a.slice(-n)]: the last [n] elements, all of them when there are fewer. *)
Definition slice_last {A} (n : nat) (a : list A) : list A :=
  drop (length a - n)%nat a.

(** [a.slice(0, n)] *)
Definition slice_first {A} (n : nat) (a : list A) : list A := take n a.

(** [s.includes(needle)] *)
Fixpoint includes (needle s : string) : bool :=
  String.prefix needle s ||
  match s with
  | EmptyString => false
  | String _ s' => includes needle s'
  end.

(** White space of [String.prototype.trim] within ASCII. *)
Definition is_space (c : ascii) : bool :=
  let n := Ascii.N_of_ascii c in
  ((9 <=? n)%N && (n <=? 13)%N) || (n =? 32)%N.

Fixpoint trimStart (s : string) : string :=
  match s with
  | EmptyString => EmptyString
  | String c s' => if is_space c then trimStart s' else s
  end.

Fixpoint trimEnd (s : string) : string :=
  match s with
  | EmptyString => EmptyString
  | String c s' =>
      match trimEnd s' with
      | EmptyString => if is_space c then EmptyString else String c EmptyString
      | t => String c t
      end
  end.

Definition trim (s : string) : string := trimEnd (trimStart s).

(** [x || d] on strings: the empty string is falsy. *)
Definition or_else (x : option string) (d : string) : string :=
  match x with
  | Some (String c s) => String c s
  | _ => d
  end.

(** An exit code (an integer, printed in decimal) or [null] inside a template
    literal. *)
Definition show_code (code : option Z) : string :=
  match code with
  | Some n => pretty n
  | None => "null"
  end.

(** [code === 0] *)
Definition is_zero (code : option Z) : bool :=
  match code with
  | Some 0 => true
  | _ => false
  end.

End Js.

(** ** Node's [path] module (POSIX flavour)

    [path.join], [path.normalize] and [path.basename] as Node implements them
    for POSIX paths, on segments instead of character indices. *)

Module Path.

Definition SEP : ascii := "/"%char.

(** The segment walk of [normalizeString]: [acc] holds the kept segments,
    last one first. *)
Fixpoint walk (allowAboveRoot : bool) (acc : list string) (segs : list string)
  : list string :=
  match segs with
  | [] => rev acc
  | seg :: rest =>
      if bool_decide (seg = "" ∨ seg = ".") then walk allowAboveRoot acc rest
      else if bool_decide (seg = "..") then
        match acc with
        | top :: below =>
            if bool_decide (top = "..") then
              if allowAboveRoot then walk allowAboveRoot (seg :: acc) rest
              else walk allowAboveRoot acc rest
            else walk allowAboveRoot below rest
        | [] =>
            if allowAboveRoot then walk allowAboveRoot [seg] rest
            else walk allowAboveRoot [] rest
        end
      else walk allowAboveRoot (seg :: acc) rest
  end.

Definition isAbsolute (p : string) : bool := String.prefix "/" p.

Definition endsWithSep (p : string) : bool :=
  match last (Js.split SEP p) with
  | Some "" => negb (bool_decide (p = ""))
  | _ => false
  end.

(** [path.normalize(p)] *)
Definition normalize (p : string) : string :=
  if bool_decide (p = "") then "."
  else
    let body := Js.join "/" (walk (negb (isAbsolute p)) [] (Js.split SEP p)) in
    if bool_decide (body = "") then
      if isAbsolute p then "/" else if endsWithSep p then "./" else "."
    else
      let body := if endsWithSep p then body +:+ "/" else body in
      if isAbsolute p then "/" +:+ body else body.

(** [path.join(...parts)]: empty parts are skipped. *)
Definition join (parts : list string) : string :=
  match filter (λ s, s ≠ "") parts with
  | [] => "."
  | kept => normalize (Js.join "/" kept)
  end.

(** [path.basename(p)]: the last non-empty segment. *)
Definition basename (p : string) : string :=
  default "" (last (filter (λ s, s ≠ "") (Js.split SEP p))).

End Path.

(** ** HTTP replies *)

Inductive Json :=
  | JStr (s : string)
  | JBool (b : bool)
  | JNum (text : string)
  | JArr (items : list string).

Definition Body := list (string * Json).

Inductive Response :=
  (** [res.status(status).json(body)]; a bare [res.json] has status 200 *)
  | Reply (status : Z) (body : Body)
  (** [res.download(filePath, cb)]: the file's bytes as an attachment, and
      the error the transfer ended with, if any *)
  | Download (filePath : string) (content : string) (err : option string).

Fixpoint get (k : string) (body : Body) : option Json :=
  match body with
  | [] => None
  | (k', v) :: rest => if bool_decide (k' = k) then Some v else get k rest
  end.

Definition field (k : string) (r : Response) : option Json :=
  match r with
  | Reply _ body => get k body
  | Download _ _ _ => None
  end.

Definition has_field (k : string) (r : Response) : bool :=
  bool_decide (is_Some (field k r)).

Definition status_of (r : Response) : Z :=
  match r with
  | Reply st _ => st
  | Download _ _ _ => 200
  end.

(** ** The world the handlers act on *)

(** The one callback handed to [setTimeout]: unlink the served file. *)
Inductive Callback :=
  | DeleteServed (filePath : string).

Inductive Line :=
  | Log (args : list string)
  | Err (args : list string).

(** Files are named by the path string the program hands to [fs]. *)
Record World := mkWorld {
  files : gmap string string;            (* path on disk |-> content *)
  unlinks : list (string * bool);        (* fs.unlink calls: path, removed? *)
  spawned : list (string * list string); (* spawn calls: command, arguments *)
  timers : list (Z * Callback);          (* setTimeout calls: delay, callback *)
  console : list Line;
}.

Definition M (A : Type) : Type := World → A * World.

#[export] Instance M_ret : MRet M := λ A x w, (x, w).
#[export] Instance M_bind : MBind M := λ A B f m w, let (x, w') := m w in f x w'.

Definition console_log (args : list string) : M unit := λ w,
  (tt, mkWorld (files w) (unlinks w) (spawned w) (timers w) (console w ++ [Log args])).

Definition console_error (args : list string) : M unit := λ w,
  (tt, mkWorld (files w) (unlinks w) (spawned w) (timers w) (console w ++ [Err args])).

(** [spawn(command, args)] *)
Definition spawn (command : string) (args : list string) : M unit := λ w,
  (tt, mkWorld (files w) (unlinks w) (spawned w ++ [(command, args)]) (timers w) (console w)).

(** [setTimeout(cb, delay)] *)
Definition setTimeout (cb : Callback) (delay : Z) : M unit := λ w,
  (tt, mkWorld (files w) (unlinks w) (spawned w) (timers w ++ [(delay, cb)]) (console w)).

(** [fs.existsSync(p)] *)
Definition existsSync (p : string) : M bool := λ w,
  (bool_decide (is_Some (files w !! p)), w).

(** [fs.unlink(p, cb)]: the result is the error passed to [cb]. *)
Definition unlink (p : string) : M (option string) := λ w,
  match files w !! p with
  | Some _ =>
      (None, mkWorld (delete p (files w)) (unlinks w ++ [(p, true)])
                     (spawned w) (timers w) (console w))
  | None =>
      (Some ("ENOENT: no such file or directory, unlink '" +:+ p +:+ "'"),
       mkWorld (files w) (unlinks w ++ [(p, false)]) (spawned w) (timers w) (console w))
  end.

(** How often [p] was actually removed from disk. *)
Definition removals (p : string) (w : World) : nat :=
  length (filter (λ u, u = (p, true)) (unlinks w)).

(** How often [fs.unlink] was called on [p]. *)
Definition unlink_calls (p : string) (w : World) : nat :=
  length (filter (λ u, u.1 = p) (unlinks w)).

(** ** The child process *)

(** What a spawned child emits, in order.  [Close None] is a child ended by a
    signal ([code] is [null]).  After the 'error' of a failed spawn Node
    emits 'close' as well, so the properties below are stated for every
    sequence of events, not only for those with one terminal event. *)
Inductive ChildEvent :=
  | StdoutData (data : string)
  | StderrData (data : string)
  | Close (code : option Z)
  | Error (message : string).

Definition terminal (e : ChildEvent) : bool :=
  match e with
  | Close _ | Error _ => true
  | StdoutData _ | StderrData _ => false
  end.

(** Deliver the events to the registered listeners, threading the variables
    the listeners close over. *)
Fixpoint emit {S} (on : ChildEvent → S → M S) (events : list ChildEvent) (st : S)
  : M S :=
  match events with
  | [] => mret st
  | e :: rest => st' ← on e st; emit on rest st'
  end.

(** The two source files. *)
Inductive Build :=
  | Unnamed     (* the unnamed source file *)
  | Packages.   (* packages/index.js *)

(** ** [testFFmpeg] and [GET /health] *)

(** A promise settles once; later [resolve]/[reject] calls are ignored. *)
Definition settle (p : option bool) (v : bool) : option bool :=
  match p with
  | Some _ => p
  | None => Some v
  end.

Record Probe := mkProbe {
  probe_output : string;
  probe_promise : option bool;   (* [Some true]: resolved, [Some false]: rejected *)
}.

Definition testFFmpeg_on (e : ChildEvent) (st : Probe) : M Probe :=
  match e with
  | StdoutData data | StderrData data =>
      mret (mkProbe (probe_output st +:+ data) (probe_promise st))
  | Close code =>
      if Js.is_zero code then
        console_log ["✅ FFmpeg is working!"];;
        console_log ["📹"; default "" (head (Js.split Js.LF (probe_output st)))];;
        mret (mkProbe (probe_output st) (settle (probe_promise st) true))
      else
        console_error ["❌ FFmpeg test failed"];;
        mret (mkProbe (probe_output st) (settle (probe_promise st) false))
  | Error message =>
      console_error ["❌ FFmpeg not found:"; message];;
      mret (mkProbe (probe_output st) (settle (probe_promise st) false))
  end.

Definition testFFmpeg (child : list ChildEvent) : M (option bool) :=
  spawn "ffmpeg" ["-version"];;
  st ← emit testFFmpeg_on child (mkProbe "" None);
  mret (probe_promise st).

(** [timestamp] is [new Date().toISOString()], [uptime] the JSON text of
    [process.uptime()]. *)
Definition get_health (b : Build) (timestamp uptime : string)
    (child : list ChildEvent) : M (list Response) :=
  settled ← testFFmpeg child;
  match settled with
  | Some true =>
      mret [Reply 200 ([("status", JStr "healthy"); ("ffmpeg", JStr "available");
                        ("timestamp", JStr timestamp)] ++
                       match b with
                       | Unnamed => [("uptime", JNum uptime)]
                       | Packages => []
                       end)]
  | Some false =>
      mret [Reply 500 [("status", JStr "unhealthy"); ("ffmpeg", JStr "unavailable");
                       ("error", JStr "FFmpeg not working");
                       ("timestamp", JStr timestamp)]]
  | None => mret []
  end.

(** ** [GET /ffmpeg-info] *)

Record Info := mkInfo {
  info_output : string;
  info_sent : list Response;     (* [res.json] calls, in order *)
  info_uncaught : list string;   (* 'error' events that found no listener *)
}.

(** The object literals the info listeners answer with.  As for a
    conversion, a second [res.json] and an 'error' without listener are
    recorded here, while the program ends with an exception there;
    [info_survives] names the runs on which neither happens. *)
Definition info_reply (b : Build) (output : string) : Response :=
  match b with
  | Unnamed =>
      let lines := Js.split Js.LF output in
      Reply 200
        [("success", JBool true);
         ("version", JStr (default "" (head lines)));
         ("configuration",
           JStr (Js.or_else
                   (find (λ line, Js.includes "configuration:" line) lines)
                   "Not found"));
         ("libraries",
           JArr (Js.slice_first 5
                   (List.filter (λ line, Js.includes "lib" line) lines)))]
  | Packages =>
      Reply 200
        [("success", JBool true);
         ("version", JStr (default "" (head (Js.split Js.LF output))));
         ("fullInfo", JStr output)]
  end.

Definition info_failed : Response :=
  Reply 500 [("success", JBool false); ("error", JStr "Could not get FFmpeg info")].

Definition info_error (message : string) : Response :=
  Reply 500 [("success", JBool false); ("error", JStr message)].

Definition ffmpeg_info_on (b : Build) (e : ChildEvent) (st : Info) : M Info :=
  match e with
  | StdoutData data | StderrData data =>
      mret (mkInfo (info_output st +:+ data) (info_sent st) (info_uncaught st))
  | Close code =>
      let reply :=
        if Js.is_zero code then info_reply b (info_output st) else info_failed in
      mret (mkInfo (info_output st) (info_sent st ++ [reply]) (info_uncaught st))
  | Error message =>
      match b with
      | Unnamed =>
          mret (mkInfo (info_output st) (info_sent st ++ [info_error message])
                  (info_uncaught st))
      | Packages =>
          (* this build registers no 'error' listener on the child *)
          mret (mkInfo (info_output st) (info_sent st) (info_uncaught st ++ [message]))
      end
  end.

Definition get_ffmpeg_info (b : Build) (child : list ChildEvent) : M Info :=
  spawn "ffmpeg" ["-version"];;
  emit (ffmpeg_info_on b) child (mkInfo "" [] []).

(** ** [POST /convert] *)

(** [req.file] as multer leaves it. *)
Record UploadedFile := mkUpload {
  path : string;
  originalname : string;
  size : Z;
  mimetype : string;
}.

Record Conv := mkConv {
  progress : string;
  conv_sent : list Response;   (* [res.json] calls, in order *)
}.

(** The three object literals the conversion listeners answer with.  The
    listeners below record every [res.json] call; Express raises on a second
    call for one request and an uncaught exception ends the process, so of a
    run with two terminal events only the part up to the second call is what
    the program does. *)
Definition converted (outputPath : string) : Response :=
  Reply 200
    [("success", JBool true);
     ("message", JStr "Video converted successfully");
     ("outputFile", JStr (Path.basename outputPath));
     ("downloadUrl", JStr ("/download/" +:+ Path.basename outputPath))].

Definition conversion_failed (b : Build) (code : option Z) (progress : string)
  : Response :=
  Reply 500
    [("success", JBool false);
     ("error", JStr ("Conversion failed with exit code " +:+ Js.show_code code));
     ("details",
       JStr match b with
            | Unnamed =>   (* progress.split('\n').slice(-5).join('\n') *)
                Js.join Js.NL (Js.slice_last 5 (Js.split Js.LF progress))
            | Packages => progress
            end)].

Definition process_error (message : string) : Response :=
  Reply 500
    [("success", JBool false);
     ("error", JStr "FFmpeg process error");
     ("details", JStr message)].

Definition convert_on (b : Build) (inputPath outputPath : string)
    (e : ChildEvent) (st : Conv) : M Conv :=
  match e with
  | StdoutData _ => mret st
  | StderrData data =>
      let st' := mkConv (progress st +:+ data) (conv_sent st) in
      match b with
      | Unnamed =>
          if Js.includes "time=" data || Js.includes "error" data
          then console_log ["FFmpeg progress:"; Js.trim data];; mret st'
          else mret st'
      | Packages => console_log ["FFmpeg:"; data];; mret st'
      end
  | Close code =>
      err ← unlink inputPath;
      match err with
      | Some e => console_error ["Error deleting input file:"; e]
      | None => mret tt
      end;;
      if Js.is_zero code then
        mret (mkConv (progress st) (conv_sent st ++ [converted outputPath]))
      else
        mret (mkConv (progress st)
                (conv_sent st ++ [conversion_failed b code (progress st)]))
  | Error message =>
      _ ← unlink inputPath;
      mret (mkConv (progress st) (conv_sent st ++ [process_error message]))
  end.

(** [`uploads/converted_${Date.now()}.mp4`] *)
Definition outputPath_at (now : Z) : string :=
  "uploads/converted_" +:+ pretty now +:+ ".mp4".

Definition convert_args (inputPath outputPath : string) : list string :=
  ["-i"; inputPath; "-c:v"; "libx264"; "-c:a"; "aac";
   "-preset"; "fast"; "-crf"; "23"; "-y"; outputPath].

(** [file] is [req.file], [now] is [Date.now()]. *)
Definition post_convert (b : Build) (file : option UploadedFile) (now : Z)
    (child : list ChildEvent) : M (list Response) :=
  match file with
  | None => mret [Reply 400 [("error", JStr "No file uploaded")]]
  | Some f =>
      let inputPath := path f in
      let outputPath := outputPath_at now in
      console_log ["Converting: " +:+ inputPath +:+ " -> " +:+ outputPath];;
      spawn "ffmpeg" (convert_args inputPath outputPath);;
      st ← emit (convert_on b inputPath outputPath) child (mkConv "" []);
      mret (conv_sent st)
  end.

(** ** [GET /download/:filename] *)

Definition download_path (dirname filename : string) : string :=
  Path.join [dirname; "uploads"; filename].

(** [dirname] is [__dirname], [filename] is [req.params.filename], [transfer]
    the error the download ended with, if any. *)
Definition get_download (dirname filename : string) (transfer : option string)
  : M (list Response) :=
  let filePath := download_path dirname filename in
  found ← existsSync filePath;
  if negb found then mret [Reply 404 [("error", JStr "File not found")]]
  else λ w,
    let reply := Download filePath (default "" (files w !! filePath)) transfer in
    match transfer with
    | Some err => (console_error ["Download error:"; err];; mret [reply]) w
    | None => (setTimeout (DeleteServed filePath) 1000;; mret [reply]) w
    end.

Definition run_callback (cb : Callback) : M unit :=
  match cb with
  | DeleteServed filePath =>
      err ← unlink filePath;
      match err with
      | Some e => console_error ["Error deleting file:"; e]
      | None => mret tt
      end
  end.

(** [ms] milliseconds pass with no request in between: the timers that are
    due run in the order they were set, the others stay pending. *)
Fixpoint run_due (ms : Z) (pending : list (Z * Callback)) : M (list (Z * Callback)) :=
  match pending with
  | [] => mret []
  | (delay, cb) :: rest =>
      if delay <=? ms then run_callback cb;; run_due ms rest
      else later ← run_due ms rest; mret ((delay - ms, cb) :: later)
  end.

Definition elapse (ms : Z) : M unit := λ w,
  let (later, w') :=
    run_due ms (timers w)
      (mkWorld (files w) (unlinks w) (spawned w) [] (console w)) in
  (tt, mkWorld (files w') (unlinks w') (spawned w') (later ++ timers w') (console w')).

(** ** Vocabulary of the contracts *)

(** Of the [res.json] calls a handler makes, the first one is the answer the
    client gets (Express refuses to send a second one). *)
Definition delivered (sent : list Response) : option Response := head sent.

(** The [fs.unlink] calls the conversion listeners make on the upload, given
    whether it is on disk: one per terminal event, only the first can remove. *)
Fixpoint unlink_trace (inputPath : string) (present : bool)
    (child : list ChildEvent) : list (string * bool) :=
  match child with
  | [] => []
  | e :: rest =>
      if terminal e then (inputPath, present) :: unlink_trace inputPath false rest
      else unlink_trace inputPath present rest
  end.

(** The child has ended: it emitted 'close' or 'error'. *)
Definition ended (child : list ChildEvent) : bool := existsb terminal child.

(** The first terminal event the child emits. *)
Definition outcome (child : list ChildEvent) : option ChildEvent :=
  find terminal child.

(** The child is still running: no 'close', no 'error' so far. *)
Definition quiet (data : list ChildEvent) : bool :=
  forallb (λ e, negb (terminal e)) data.

(** What the child wrote to its diagnostic stream. *)
Fixpoint stderr_text (data : list ChildEvent) : string :=
  match data with
  | [] => ""
  | StderrData d :: rest => d +:+ stderr_text rest
  | _ :: rest => stderr_text rest
  end.

(** What the child wrote to either stream. *)
Fixpoint all_text (data : list ChildEvent) : string :=
  match data with
  | [] => ""
  | (StdoutData d | StderrData d) :: rest => d +:+ all_text rest
  | _ :: rest => all_text rest
  end.

(** Character [c] occurs in [s]. *)
Fixpoint mentions (c : ascii) (s : string) : bool :=
  match s with
  | EmptyString => false
  | String x s' => Ascii.eqb x c || mentions c s'
  end.

(** The files whose deletion is due once [ms] milliseconds have passed. *)
Fixpoint due_paths (ms : Z) (pending : list (Z * Callback)) : list string :=
  match pending with
  | [] => []
  | (delay, DeleteServed filePath) :: rest =>
      if delay <=? ms then filePath :: due_paths ms rest else due_paths ms rest
  end.

(** A directory name as the file system spells it: no empty, [.] or [..]
    segment, no separator inside a segment. *)
Definition plain (seg : string) : bool :=
  negb (bool_decide (seg = "" ∨ seg = "." ∨ seg = ".."))
  && negb (mentions Path.SEP seg).

(** The absolute path with the given segments. *)
Definition absolute (segs : list string) : string := "/" +:+ Js.join "/" segs.

(** [p] names something below directory [dir]. *)
Definition inside (dir p : string) : bool := String.prefix (dir +:+ "/") p.

(** The number of lines of a text. *)
Definition line_count (s : string) : nat := length (Js.split Js.LF s).

(** ** Sample inputs *)

(** A disk holding one upload, and the upload as multer describes it. *)
Definition upload : UploadedFile := mkUpload "uploads/3f9a" "clip.avi" 10 "video/x-msvideo".
Definition disk_with_upload : World := mkWorld {[ "uploads/3f9a" := "0123456789" ]} [] [] [] [].

(** The first lines of a version banner. *)
Definition banner : string :=
  "ffmpeg version 6.0" +:+ Js.NL +:+ "configuration: --enable-libx264" +:+ Js.NL
  +:+ "libavutil 58. 2.100".

(** Seven lines of diagnostic text. *)
Definition seven_lines : string :=
  "line 1" +:+ Js.NL +:+ "line 2" +:+ Js.NL +:+ "line 3" +:+ Js.NL +:+ "line 4"
  +:+ Js.NL +:+ "line 5" +:+ Js.NL +:+ "line 6" +:+ Js.NL +:+ "line 7".

(** A disk holding one converted file in the uploads directory of a server
    installed in [/srv/app]. *)
Definition disk_with_output : World :=
  mkWorld {[ "/srv/app/uploads/converted_17.mp4" := "mp4 bytes" ]} [] [] [] [].

(** The text in front of the last segment of an absolute path. *)
Definition base (segs : list string) : string :=
  match segs with
  | [] => "/"
  | _ => "/" +:+ Js.join "/" segs +:+ "/"
  end.

(** ** Startup: the callback handed to [app.listen] *)

(** [process.env.PORT || 3000], as it prints inside a template literal. *)
Definition PORT (env : gmap string string) : string :=
  Js.or_else (env !! "PORT") "3000".

Definition ready_line (b : Build) : string :=
  match b with
  | Unnamed => "🎬 FFmpeg is ready for video processing!"
  | Packages => "🎬 FFmpeg is ready!"
  end.

Definition failed_line (b : Build) : string :=
  match b with
  | Unnamed => "⚠️  FFmpeg setup failed - video processing will not work"
  | Packages => "⚠️  FFmpeg setup failed"
  end.

(** The lines the callback prints first; [env] is [process.env]. *)
Definition announce (b : Build) (env : gmap string string) : M unit :=
  console_log ["🚀 Server running on port " +:+ PORT env];;
  match b with
  | Unnamed =>
      console_log ["📡 Environment: " +:+ Js.or_else (env !! "NODE_ENV") "development"];;
      match env !! "RAILWAY_PUBLIC_DOMAIN" with
      | Some (String c domain) =>
          console_log ["🌐 Public URL: https://" +:+ String c domain]
      | _ => mret tt
      end
  | Packages =>
      console_log ["📡 Railway URL: " +:+
                   Js.or_else (env !! "RAILWAY_PUBLIC_DOMAIN") ("localhost:" +:+ PORT env)]
  end.

(** Deliver the child's events to the probe's listeners until its promise
    has settled; what the child emits after that is handed back. *)
Fixpoint emit_settling (events : list ChildEvent) (st : Probe)
  : M (Probe * list ChildEvent) :=
  match events with
  | [] => mret (st, [])
  | e :: rest =>
      st' ← testFFmpeg_on e st;
      match probe_promise st' with
      | Some _ => mret (st', rest)
      | None => emit_settling rest st'
      end
  end.

(** The body of [testFFmpeg] runs inside the callback; the code after
    [await] (the [try] branch or the [catch] branch) runs as soon as the
    promise has settled, before the child's next event is delivered; the
    listeners stay registered and handle the later events. *)
Definition on_listen (b : Build) (env : gmap string string)
    (child : list ChildEvent) : M unit :=
  announce b env;;
  spawn "ffmpeg" ["-version"];;
  settled ← emit_settling child (mkProbe "" None);
  match probe_promise settled.1 with
  | Some true => console_log [ready_line b]
  | Some false => console_error [failed_line b]
  | None => mret tt
  end;;
  emit testFFmpeg_on settled.2 settled.1;;
  mret tt.

(** ** The tool's output file *)



(** [GET /ffmpeg-info] raises nothing on this behaviour of the child: every
    terminal event reaches a listener and [res.json] is called at most once.
    (A second [res.json] is refused by Express with an exception, an 'error'
    without listener is raised by Node; either ends the process.) *)
Definition info_survives (b : Build) (child : list ChildEvent) : bool :=
  match b with
  | Unnamed => bool_decide (length (List.filter terminal child) ≤ 1)%nat
  | Packages =>
      forallb (λ e, match e with Error _ => false | _ => true end) child
      && bool_decide (length (List.filter terminal child) ≤ 1)%nat
  end.

(** ** More vocabulary *)

(** The terminal event is an exit with code 0. *)
Definition succeeded (e : ChildEvent) : bool :=
  match e with
  | Close code => Js.is_zero code
  | _ => false
  end.

Definition is_stdout (e : ChildEvent) : bool :=
  match e with
  | StdoutData _ => true
  | _ => false
  end.

(** The child's events without what it wrote to standard output. *)
Definition without_stdout (child : list ChildEvent) : list ChildEvent :=
  List.filter (λ e, negb (is_stdout e)) child.

(** The two answers of [GET /health]. *)
Definition healthy (b : Build) (timestamp uptime : string) : Response :=
  Reply 200 ([("status", JStr "healthy"); ("ffmpeg", JStr "available");
              ("timestamp", JStr timestamp)] ++
             match b with
             | Unnamed => [("uptime", JNum uptime)]
             | Packages => []
             end).

Definition unhealthy (timestamp : string) : Response :=
  Reply 500 [("status", JStr "unhealthy"); ("ffmpeg", JStr "unavailable");
             ("error", JStr "FFmpeg not working");
             ("timestamp", JStr timestamp)].

(** * Properties *)

Example split_empty : Js.split Js.LF "" = [""].
Proof. reflexivity. Qed.
Example split_trailing : Js.split Path.SEP "a/b/" = ["a"; "b"; ""].
Proof. reflexivity. Qed.
Example join_up : Path.join ["/srv/app"; "uploads"; "../index.js"] = "/srv/app/index.js".
Proof. reflexivity. Qed.
Example join_plain : Path.join ["/srv/app"; "uploads"; "converted_17.mp4"]
  = "/srv/app/uploads/converted_17.mp4".
Proof. reflexivity. Qed.
Example join_above : Path.join ["a"; "../../b/"] = "../b/".
Proof. reflexivity. Qed.
Example basename_out : Path.basename "uploads/converted_17.mp4" = "converted_17.mp4".
Proof. reflexivity. Qed.
Example trim_ex : Js.trim "  frame= 1 time=00:01
" = "frame= 1 time=00:01".
Proof. reflexivity. Qed.

(** ** The state monad *)

Lemma bind_run {A B} (m : M A) (f : A → M B) (w : World) :
  (m ≫= f) w = f (m w).1 (m w).2.
Proof. unfold mbind, M_bind. by destruct (m w). Qed.

Lemma ret_run {A} (x : A) (w : World) : mret (M := M) x w = (x, w).
Proof. reflexivity. Qed.

Lemma emit_app {S} (on : ChildEvent → S → M S) (l1 l2 : list ChildEvent) st w :
  emit on (l1 ++ l2) st w = emit on l2 (emit on l1 st w).1 (emit on l1 st w).2.
Proof.
  revert st w. induction l1 as [|e l1 IH]; intros st w; [done|].
  cbn [app emit]. rewrite !bind_run. apply IH.
Qed.

Ltac run :=
  repeat progress
    (cbn;
     unfold mbind, M_bind, mret, M_ret, unlink, console_log, console_error,
       spawn, setTimeout, existsSync).

(** ** The disk during a conversion *)

Section Conversion.
Variable b : Build.
Variables inputPath outputPath : string.

Let on := convert_on b inputPath outputPath.

Lemma convert_on_data e st w :
  terminal e = false →
  let w' := (on e st w).2 in
  files w' = files w ∧ unlinks w' = unlinks w ∧
  spawned w' = spawned w ∧ timers w' = timers w.
Proof.
  subst on. destruct e as [d|d| |]; try discriminate; intros _; cbn.
  - done.
  - destruct b; run; [|done].
    by destruct (Js.includes "time=" d || Js.includes "error" d).
Qed.

Lemma convert_on_terminal e st w :
  terminal e = true →
  let w' := (on e st w).2 in
  files w' = delete inputPath (files w) ∧
  unlinks w' = unlinks w ++ [(inputPath, bool_decide (is_Some (files w !! inputPath)))] ∧
  spawned w' = spawned w ∧ timers w' = timers w.
Proof.
  subst on. destruct e as [| |code|msg]; try discriminate; intros _; run.
  - destruct (files w !! inputPath) as [c|] eqn:E; cbn.
    + by destruct (Js.is_zero code).
    + rewrite delete_id by done. by destruct (Js.is_zero code).
  - destruct (files w !! inputPath) as [c|] eqn:E; cbn; [done|].
    by rewrite delete_id by done.
Qed.

Lemma emit_convert_world child st w :
  let w' := (emit on child st w).2 in
  files w' = (if ended child then delete inputPath (files w) else files w) ∧
  unlinks w' = unlinks w ++
    unlink_trace inputPath (bool_decide (is_Some (files w !! inputPath))) child ∧
  spawned w' = spawned w ∧ timers w' = timers w.
Proof.
  revert st w. induction child as [|e child IH]; intros st w.
  - cbn. by rewrite app_nil_r.
  - cbn [emit]. rewrite bind_run. cbn [ended existsb unlink_trace].
    specialize (IH (on e st w).1 (on e st w).2). cbn zeta in IH |- *.
    destruct IH as (Hf & Hu & Hs & Ht).
    destruct (terminal e) eqn:Et.
    + destruct (convert_on_terminal e st w Et) as (Hf' & Hu' & Hs' & Ht').
      rewrite Hf, Hu, Hs, Ht, Hf', Hu', Hs', Ht'. cbn [orb].
      rewrite lookup_delete_eq.
      rewrite (bool_decide_eq_false_2 (is_Some None)) by (by intros [? ?]).
      repeat split; try done.
      * fold (ended child). destruct (ended child); [|done].
        apply delete_delete_eq.
      * by rewrite <- app_assoc.
    + destruct (convert_on_data e st w Et) as (Hf' & Hu' & Hs' & Ht').
      rewrite Hf, Hu, Hs, Ht, Hf', Hu', Hs', Ht'. done.
Qed.

End Conversion.

Lemma append_cons (c : ascii) (s1 s2 : string) :
  String c s1 +:+ s2 = String c (s1 +:+ s2).
Proof. reflexivity. Qed.

Lemma append_nil_l (s : string) : "" +:+ s = s.
Proof. reflexivity. Qed.

Lemma append_assoc (s1 s2 s3 : string) : (s1 +:+ s2) +:+ s3 = s1 +:+ s2 +:+ s3.
Proof. induction s1 as [|c s1 IH]; [done|]. by rewrite !append_cons, IH. Qed.

Lemma append_nil_r (s : string) : s +:+ "" = s.
Proof. induction s as [|c s IH]; [done|]. by rewrite append_cons, IH. Qed.

Lemma outcome_split (child : list ChildEvent) (e : ChildEvent) :
  outcome child = Some e →
  ∃ data rest, child = data ++ e :: rest ∧ quiet data = true ∧ terminal e = true.
Proof.
  unfold outcome. induction child as [|x child IH]; cbn; [done|].
  destruct (terminal x) eqn:Ex.
  - intros [= ->]. by exists [], child.
  - intros H. destruct (IH H) as (data & rest & -> & Hq & He).
    exists (x :: data), rest. cbn. by rewrite Ex.
Qed.

Lemma outcome_app (data rest : list ChildEvent) (e : ChildEvent) :
  quiet data = true → terminal e = true → outcome (data ++ e :: rest) = Some e.
Proof.
  unfold outcome. induction data as [|x data IH]; cbn; intros Hq He.
  - by rewrite He.
  - apply andb_prop in Hq as [Hx Hq]. destruct (terminal x); [done|]. by apply IH.
Qed.

Lemma ended_outcome (child : list ChildEvent) :
  ended child = true ↔ is_Some (outcome child).
Proof.
  unfold ended, outcome. induction child as [|x child IH]; cbn.
  - split; [done|by intros [? ?]].
  - destruct (terminal x); cbn; [|done]. split; eauto.
Qed.

(** ** The replies of a conversion *)

Section ConversionReplies.
Variable b : Build.
Variables inputPath outputPath : string.

Let on := convert_on b inputPath outputPath.

Lemma convert_quiet data st w :
  quiet data = true →
  (emit on data st w).1 = mkConv (progress st +:+ stderr_text data) (conv_sent st).
Proof.
  revert st w. induction data as [|e data IH]; intros st w Hq.
  - cbn. rewrite append_nil_r. by destruct st.
  - cbn in Hq. apply andb_prop in Hq as [He Hq].
    cbn [emit]. rewrite bind_run, IH by done.
    subst on. destruct e as [d|d| |]; try discriminate; cbn; [done|].
    rewrite <- append_assoc.
    destruct b; run; [|done].
    by destruct (Js.includes "time=" d || Js.includes "error" d).
Qed.

Lemma convert_terminal_sent e st w :
  conv_sent (on e st w).1 = conv_sent st ++
    match e with
    | Close code =>
        [if Js.is_zero code then converted outputPath
         else conversion_failed b code (progress st)]
    | Error message => [process_error message]
    | _ => []
    end.
Proof.
  subst on. destruct e as [d|d|code|msg]; run.
  - by rewrite app_nil_r.
  - rewrite app_nil_r. destruct b; run; [|done].
    by destruct (Js.includes "time=" d || Js.includes "error" d).
  - by destruct (files w !! inputPath); destruct (Js.is_zero code).
  - by destruct (files w !! inputPath).
Qed.

Lemma convert_sent_grows child st w :
  ∃ more, conv_sent (emit on child st w).1 = conv_sent st ++ more.
Proof.
  revert st w. induction child as [|e child IH]; intros st w.
  - exists []. cbn. by rewrite app_nil_r.
  - cbn [emit]. rewrite bind_run.
    destruct (IH (on e st w).1 (on e st w).2) as [more ->].
    rewrite convert_terminal_sent, <- app_assoc. eauto.
Qed.

(** The answer of a conversion is the reply to the first terminal event;
    the diagnostic text it sees is what the child wrote before it. *)
Lemma convert_delivered data e rest w :
  quiet data = true → terminal e = true →
  delivered (conv_sent (emit on (data ++ e :: rest) (mkConv "" []) w).1)
  = match e with
    | Close code =>
        Some (if Js.is_zero code then converted outputPath
              else conversion_failed b code (stderr_text data))
    | Error message => Some (process_error message)
    | _ => None
    end.
Proof.
  intros Hq He. rewrite emit_app. cbn [emit]. rewrite bind_run.
  set (w1 := (emit on data _ w).2).
  destruct (convert_sent_grows rest
              (on e (emit on data (mkConv "" []) w).1 w1).1
              (on e (emit on data (mkConv "" []) w).1 w1).2) as [more ->].
  rewrite convert_terminal_sent, (convert_quiet data) by done.
  cbn [progress conv_sent]. rewrite append_nil_l.
  by destruct e.
Qed.

Lemma convert_silent child w :
  outcome child = None →
  conv_sent (emit on child (mkConv "" []) w).1 = [].
Proof.
  intros Hn. rewrite convert_quiet; [done|].
  unfold outcome in Hn. unfold quiet.
  induction child as [|x child IH]; [done|]. cbn in *.
  destruct (terminal x); [done|]. by apply IH.
Qed.

End ConversionReplies.

(** ** [POST /convert] as a whole *)

Lemma post_convert_world b f now child w :
  let w' := (post_convert b (Some f) now child w).2 in
  files w' = (if ended child then delete (path f) (files w) else files w) ∧
  unlinks w' = unlinks w ++
    unlink_trace (path f) (bool_decide (is_Some (files w !! path f))) child ∧
  spawned w' = spawned w ++ [("ffmpeg", convert_args (path f) (outputPath_at now))] ∧
  timers w' = timers w.
Proof.
  unfold post_convert. rewrite !bind_run.
  set (w1 := (spawn _ _ _).2).
  destruct (emit_convert_world b (path f) (outputPath_at now) child (mkConv "" []) w1)
    as (Hf & Hu & Hs & Ht).
  cbn zeta. rewrite ret_run. cbn [snd]. by rewrite Hf, Hu, Hs, Ht.
Qed.

Lemma post_convert_answer b f now data e rest w :
  quiet data = true → terminal e = true →
  delivered (post_convert b (Some f) now (data ++ e :: rest) w).1
  = match e with
    | Close code =>
        Some (if Js.is_zero code then converted (outputPath_at now)
              else conversion_failed b code (stderr_text data))
    | Error message => Some (process_error message)
    | _ => None
    end.
Proof.
  intros Hq He. unfold post_convert. rewrite !bind_run, ret_run. cbn [fst].
  by apply convert_delivered.
Qed.

Lemma post_convert_pending b f now child w :
  outcome child = None → (post_convert b (Some f) now child w).1 = [].
Proof.
  intros Hn. unfold post_convert. rewrite !bind_run, ret_run. cbn [fst].
  by apply convert_silent.
Qed.

Lemma unlink_trace_removed p present child :
  length (filter (λ u, u = (p, true)) (unlink_trace p present child))
  = if present && ended child then 1%nat else 0%nat.
Proof.
  revert present. induction child as [|e child IH]; intros present; cbn.
  - by destruct present.
  - destruct (terminal e); cbn [orb].
    + rewrite filter_cons. destruct present; cbn.
      * rewrite decide_True by done. cbn. by rewrite IH.
      * rewrite decide_False by (intros [=]). by rewrite IH.
    + apply IH.
Qed.

Lemma unlink_trace_calls p present child :
  length (filter (λ u : string * bool, u.1 = p) (unlink_trace p present child))
  = length (List.filter terminal child).
Proof.
  revert present. induction child as [|e child IH]; intros present; cbn; [done|].
  destruct (terminal e); [|apply IH].
  rewrite filter_cons, decide_True by done. cbn. by rewrite IH.
Qed.

Lemma is_zero_spec (code : option Z) : Js.is_zero code = true ↔ code = Some 0.
Proof. destruct code as [[| |]|]; cbn; split; congruence. Qed.

(** C1: every conversion that enters processing has its input temporary file
    removed from disk exactly once, and only once the child has ended, whether
    it ended with exit code 0, another exit code, or a spawn error; each
    terminal event makes one [fs.unlink] call on it. *)
Theorem C1_input_file_deleted_once (b : Build) (f : UploadedFile) (now : Z)
    (child : list ChildEvent) (w : World) :
  is_Some (files w !! path f) →
  let w' := (post_convert b (Some f) now child w).2 in
  if ended child
  then files w' !! path f = None ∧
       removals (path f) w' = S (removals (path f) w) ∧
       unlink_calls (path f) w'
       = (unlink_calls (path f) w + length (List.filter terminal child))%nat
  else files w' = files w ∧ unlinks w' = unlinks w.
Proof.
  intros Hin. cbn zeta.
  destruct (post_convert_world b f now child w) as (Hf & Hu & _ & _).
  unfold removals, unlink_calls. rewrite Hf, Hu.
  rewrite bool_decide_eq_true_2 by done.
  destruct (ended child) eqn:Hend.
  - rewrite lookup_delete_eq, !filter_app, !length_app.
    rewrite unlink_trace_removed, unlink_trace_calls, Hend. cbn.
    repeat split; lia.
  - split; [done|].
    assert (unlink_trace (path f) true child = []) as ->; [|by rewrite app_nil_r].
    clear -Hend. unfold ended in Hend. induction child as [|e child IH]; [done|].
    cbn in *. destruct (terminal e); [done|]. by apply IH.
Qed.

Lemma C1_input_file_deleted_once_witness :
  let w' := (post_convert Unnamed (Some upload) 17
               [StderrData "Invalid data found"; Close (Some 1)] disk_with_upload).2 in
  files w' !! "uploads/3f9a" = None ∧
  removals "uploads/3f9a" w' = 1%nat ∧
  unlink_calls "uploads/3f9a" w' = 1%nat.
Proof.
  exact (C1_input_file_deleted_once Unnamed upload 17
           [StderrData "Invalid data found"; Close (Some 1)] disk_with_upload
           (ex_intro _ "0123456789" eq_refl)).
Defined.

(** C3: the answer to a conversion request names an output file (carries
    [outputFile] and [downloadUrl]) exactly when the upload was present and the
    child's first terminal event is an exit with code 0; after a non-zero exit
    or a spawn error it carries neither. *)
Theorem C3_output_referenced_iff_exit_zero (b : Build) (file : option UploadedFile)
    (now : Z) (child : list ChildEvent) (w : World) (r : Response) :
  delivered (post_convert b file now child w).1 = Some r →
  (has_field "downloadUrl" r = true
     ↔ is_Some file ∧ outcome child = Some (Close (Some 0))) ∧
  (has_field "outputFile" r = true
     ↔ is_Some file ∧ outcome child = Some (Close (Some 0))).
Proof.
  destruct file as [f|].
  2:{ cbn [post_convert]. rewrite ret_run. intros [= <-].
      split; (split; [done|by intros [[? ?] _]]). }
  destruct (outcome child) as [e|] eqn:Ho.
  2:{ by rewrite post_convert_pending. }
  destruct (outcome_split child e Ho) as (data & rest & -> & Hq & He).
  rewrite post_convert_answer by done.
  destruct e as [| |code|msg]; try discriminate.
  - destruct (Js.is_zero code) eqn:Hz; intros [= <-].
    + apply is_zero_spec in Hz as ->. split; (split; [eauto|done]).
    + split; (split; [done|]); intros [_ [= ->]]; discriminate.
  - intros [= <-]. split; (split; [done|by intros [_ ?]]).
Qed.

Lemma C3_output_referenced_iff_exit_zero_witness :
  (has_field "downloadUrl" (converted (outputPath_at 17)) = true
     ↔ is_Some (Some upload) ∧
       outcome [StderrData "frame=1"; Close (Some 0)] = Some (Close (Some 0))) ∧
  (has_field "outputFile" (converted (outputPath_at 17)) = true
     ↔ is_Some (Some upload) ∧
       outcome [StderrData "frame=1"; Close (Some 0)] = Some (Close (Some 0))).
Proof.
  exact (C3_output_referenced_iff_exit_zero Packages (Some upload) 17
           [StderrData "frame=1"; Close (Some 0)] disk_with_upload
           (converted (outputPath_at 17)) eq_refl).
Defined.

(** C6: a conversion request without the upload field is answered with
    status 400 and a body holding only an error descriptor; nothing else
    happens, in particular no process is spawned. *)
Theorem C6_missing_upload_rejected (b : Build) (now : Z) (child : list ChildEvent)
    (w : World) :
  post_convert b None now child w = ([Reply 400 [("error", JStr "No file uploaded")]], w)
  ∧ spawned (post_convert b None now child w).2 = spawned w.
Proof. done. Qed.

(** ** [split] and [join] *)

Section SplitJoin.
Variable sep : ascii.

Lemma split_cons_sep s : Js.split sep (String sep s) = "" :: Js.split sep s.
Proof. cbn. by rewrite Ascii.eqb_refl. Qed.

Lemma split_nonempty s : Js.split sep s ≠ [].
Proof.
  destruct s as [|c s]; cbn; [done|].
  destruct (Ascii.eqb c sep); [done|]. by destruct (Js.split sep s).
Qed.

Lemma split_length_pos s : (0 < length (Js.split sep s))%nat.
Proof. pose proof (split_nonempty s). destruct (Js.split sep s); cbn; [done|lia]. Qed.

(** No piece holds the separator. *)
Lemma split_free s : Forall (λ piece, mentions sep piece = false) (Js.split sep s).
Proof.
  induction s as [|c s IH]; cbn.
  - by constructor.
  - destruct (Ascii.eqb c sep) eqn:Ec.
    + by constructor.
    + destruct (Js.split sep s) as [|piece rest]; cbn.
      * constructor; [|done]. cbn. by rewrite Ec.
      * inversion IH; subst. constructor; [|done]. cbn. by rewrite Ec.
Qed.

Lemma join_cons x y rest :
  Js.join (String sep "") (x :: y :: rest)
  = x +:+ String sep (Js.join (String sep "") (y :: rest)).
Proof. reflexivity. Qed.

(** Joining the pieces gives the text back. *)
Lemma join_split s : Js.join (String sep "") (Js.split sep s) = s.
Proof.
  induction s as [|c s IH]; [done|]. cbn [Js.split].
  destruct (Ascii.eqb c sep) eqn:Ec.
  - apply Ascii.eqb_eq in Ec as ->.
    pose proof (split_nonempty s).
    destruct (Js.split sep s) as [|y rest]; [done|].
    rewrite join_cons, append_nil_l. by rewrite IH.
  - destruct (Js.split sep s) as [|piece rest] eqn:Es.
    + by destruct (split_nonempty s).
    + destruct rest as [|y rest].
      * cbn in *. by rewrite IH.
      * rewrite join_cons in *. rewrite append_cons. by rewrite IH.
Qed.

Lemma split_append_free piece s :
  mentions sep piece = false →
  Js.split sep (piece +:+ String sep s) = piece :: Js.split sep s.
Proof.
  induction piece as [|c piece IH]; intros Hfree.
  - rewrite append_nil_l. apply split_cons_sep.
  - cbn in Hfree. apply orb_false_elim in Hfree as [Hc Hfree].
    rewrite append_cons. cbn [Js.split]. rewrite Hc, IH by done. done.
Qed.

Lemma split_free_id piece :
  mentions sep piece = false → Js.split sep piece = [piece].
Proof.
  induction piece as [|c piece IH]; intros Hfree; [done|].
  cbn in Hfree. apply orb_false_elim in Hfree as [Hc Hfree].
  cbn [Js.split]. by rewrite Hc, IH.
Qed.

(** Splitting a join of separator-free pieces gives the pieces back. *)
Lemma split_join pieces :
  pieces ≠ [] →
  Forall (λ piece, mentions sep piece = false) pieces →
  Js.split sep (Js.join (String sep "") pieces) = pieces.
Proof.
  induction pieces as [|x pieces IH]; [done|]. intros _ Hfree.
  inversion Hfree as [|? ? Hx Hrest]; subst.
  destruct pieces as [|y pieces].
  - cbn. by apply split_free_id.
  - rewrite join_cons, split_append_free by done. by rewrite IH.
Qed.

Lemma join_app l1 l2 :
  l1 ≠ [] → l2 ≠ [] →
  Js.join (String sep "") (l1 ++ l2)
  = Js.join (String sep "") l1 +:+ String sep (Js.join (String sep "") l2).
Proof.
  induction l1 as [|x l1 IH]; [done|]. intros _ Hl2.
  destruct l1 as [|y l1].
  - destruct l2 as [|z l2]; [done|]. reflexivity.
  - change ((x :: y :: l1) ++ l2) with (x :: y :: (l1 ++ l2)).
    rewrite !join_cons. change (y :: l1 ++ l2) with ((y :: l1) ++ l2).
    rewrite IH by done. by rewrite append_assoc, append_cons.
Qed.

End SplitJoin.

(** The tail the later build puts into [details]: at most five lines, and
    they are the last lines of the diagnostic text. *)
Lemma details_tail (progress : string) :
  let details := Js.join Js.NL (Js.slice_last 5 (Js.split Js.LF progress)) in
  Js.split Js.LF details = Js.slice_last 5 (Js.split Js.LF progress) ∧
  (line_count details ≤ 5)%nat ∧
  ∃ before, progress = before +:+ details.
Proof.
  cbn zeta. unfold line_count, Js.slice_last, Js.NL.
  set (lines := Js.split Js.LF progress).
  assert (Hlen : (0 < length lines)%nat) by apply split_length_pos.
  assert (Hsplit : Js.split Js.LF (Js.join (String Js.LF "") (drop (length lines - 5) lines))
                   = drop (length lines - 5) lines).
  { apply split_join.
    - intros Hnil. apply (f_equal length) in Hnil. rewrite length_drop in Hnil.
      cbn in Hnil. lia.
    - apply Forall_drop, split_free. }
  rewrite Hsplit. repeat split.
  - rewrite length_drop. lia.
  - destruct (decide (length lines ≤ 5)%nat) as [Hle|Hgt].
    + exists "". replace (length lines - 5)%nat with 0%nat by lia.
      rewrite drop_0. subst lines. by rewrite join_split.
    + exists (Js.join (String Js.LF "") (take (length lines - 5) lines) +:+ Js.NL).
      rewrite <- (join_split Js.LF progress) at 1. fold lines.
      rewrite <- (take_drop (length lines - 5) lines) at 1.
      rewrite join_app.
      * unfold Js.NL. by rewrite append_assoc.
      * intros Hnil. apply (f_equal length) in Hnil. rewrite length_take in Hnil.
        cbn in Hnil. lia.
      * intros Hnil. apply (f_equal length) in Hnil. rewrite length_drop in Hnil.
        cbn in Hnil. lia.
Qed.

(** ** Listeners in general *)

Section Listeners.
Context {S : Type} (on : ChildEvent → S → M S) (sent : S → list Response).

Hypothesis on_appends : ∀ e st w, ∃ one, sent (on e st w).1 = sent st ++ one.

Lemma emit_appends child st w :
  ∃ more, sent (emit on child st w).1 = sent st ++ more.
Proof.
  revert st w. induction child as [|e child IH]; intros st w.
  - exists []. cbn. by rewrite app_nil_r.
  - cbn [emit]. rewrite bind_run.
    destruct (IH (on e st w).1 (on e st w).2) as [more ->].
    destruct (on_appends e st w) as [one ->].
    exists (one ++ more). by rewrite app_assoc.
Qed.

(** Once an answer went out, later events do not replace it. *)
Lemma emit_keeps_answer child st w r :
  delivered (sent st) = Some r →
  delivered (sent (emit on child st w).1) = Some r.
Proof.
  intros Hr. destruct (emit_appends child st w) as [more ->].
  unfold delivered in *. by destruct (sent st).
Qed.

End Listeners.

Lemma emit_spawned {S} (on : ChildEvent → S → M S) :
  (∀ e st w, spawned (on e st w).2 = spawned w) →
  ∀ child st w, spawned (emit on child st w).2 = spawned w.
Proof.
  intros Hon child. induction child as [|e child IH]; intros st w; [done|].
  cbn [emit]. rewrite bind_run. by rewrite IH, Hon.
Qed.

(** ** The version probe *)

Lemma testFFmpeg_on_spawned e st w : spawned (testFFmpeg_on e st w).2 = spawned w.
Proof. destruct e as [d|d|code|msg]; run; try done. by destruct (Js.is_zero code). Qed.

Lemma testFFmpeg_spawned child w :
  spawned (testFFmpeg child w).2 = spawned w ++ [("ffmpeg", ["-version"])].
Proof.
  unfold testFFmpeg. rewrite !bind_run, ret_run. cbn [snd].
  by rewrite (emit_spawned _ testFFmpeg_on_spawned).
Qed.

Lemma ffmpeg_info_on_world b e st w : (ffmpeg_info_on b e st w).2 = w.
Proof.
  destruct e as [d|d|code|msg]; run; try done. by destruct b.
Qed.

Lemma ffmpeg_info_world b child st w : (emit (ffmpeg_info_on b) child st w).2 = w.
Proof.
  revert st w. induction child as [|e child IH]; intros st w; [done|].
  cbn [emit]. rewrite bind_run. by rewrite IH, ffmpeg_info_on_world.
Qed.

Lemma ffmpeg_info_quiet b data st w :
  quiet data = true →
  (emit (ffmpeg_info_on b) data st w).1
  = mkInfo (info_output st +:+ all_text data) (info_sent st) (info_uncaught st).
Proof.
  revert st w. induction data as [|e data IH]; intros st w Hq.
  - cbn. rewrite append_nil_r. by destruct st.
  - cbn in Hq. apply andb_prop in Hq as [He Hq].
    cbn [emit]. rewrite bind_run, IH by done.
    destruct e as [d|d| |]; try discriminate; cbn; by rewrite <- append_assoc.
Qed.

Lemma ffmpeg_info_on_appends b e st w :
  ∃ one, info_sent (ffmpeg_info_on b e st w).1 = info_sent st ++ one.
Proof.
  destruct e as [d|d|code|msg]; run.
  - exists []. by rewrite app_nil_r.
  - exists []. by rewrite app_nil_r.
  - eauto.
  - destruct b; cbn; eauto. exists []. by rewrite app_nil_r.
Qed.

(** The answer when the probe closes first. *)
Lemma get_ffmpeg_info_closed b data code rest w :
  quiet data = true →
  delivered (info_sent (get_ffmpeg_info b (data ++ Close code :: rest) w).1)
  = Some (if Js.is_zero code then info_reply b (all_text data) else info_failed).
Proof.
  intros Hq. unfold get_ffmpeg_info. rewrite bind_run, emit_app.
  cbn [emit]. rewrite bind_run.
  apply (emit_keeps_answer _ info_sent (ffmpeg_info_on_appends b)).
  rewrite ffmpeg_info_quiet by done. cbn. by rewrite append_nil_l.
Qed.

(** The answer of the later build when the spawn fails. *)
Lemma get_ffmpeg_info_spawn_error data message rest w :
  quiet data = true →
  delivered (info_sent (get_ffmpeg_info Unnamed (data ++ Error message :: rest) w).1)
  = Some (info_error message).
Proof.
  intros Hq. unfold get_ffmpeg_info. rewrite bind_run, emit_app.
  cbn [emit]. rewrite bind_run.
  apply (emit_keeps_answer _ info_sent (ffmpeg_info_on_appends Unnamed)).
  rewrite ffmpeg_info_quiet by done. by run.
Qed.

(** The earlier build leaves a failed spawn unanswered: the 'error' event
    finds no listener. *)
Lemma packages_info_spawn_error_unanswered data message w :
  quiet data = true →
  let st := (get_ffmpeg_info Packages (data ++ [Error message]) w).1 in
  info_sent st = [] ∧ info_uncaught st = [message].
Proof.
  intros Hq. cbn zeta. unfold get_ffmpeg_info. rewrite bind_run, emit_app.
  rewrite (ffmpeg_info_quiet Packages data) by done. by run.
Qed.

(** C7: a conversion with an upload present runs the tool once, with exactly
    [-i <input> -c:v libx264 -c:a aac -preset fast -crf 23 -y <output>]; the
    probe ([testFFmpeg], behind [GET /health]) and [GET /ffmpeg-info] run it
    with the single argument [-version]. *)
Theorem C7_tool_command_lines (b : Build) (f : UploadedFile) (now : Z)
    (timestamp uptime : string) (child : list ChildEvent) (w : World) :
  spawned (post_convert b (Some f) now child w).2
  = spawned w ++
      [("ffmpeg", ["-i"; path f; "-c:v"; "libx264"; "-c:a"; "aac";
                   "-preset"; "fast"; "-crf"; "23"; "-y"; outputPath_at now])] ∧
  spawned (testFFmpeg child w).2 = spawned w ++ [("ffmpeg", ["-version"])] ∧
  spawned (get_health b timestamp uptime child w).2
  = spawned w ++ [("ffmpeg", ["-version"])] ∧
  spawned (get_ffmpeg_info b child w).2 = spawned w ++ [("ffmpeg", ["-version"])].
Proof.
  repeat split.
  - by destruct (post_convert_world b f now child w) as (_ & _ & -> & _).
  - apply testFFmpeg_spawned.
  - unfold get_health. rewrite bind_run.
    rewrite <- (testFFmpeg_spawned child w).
    by destruct (testFFmpeg child w).1 as [[|]|].
  - unfold get_ffmpeg_info. rewrite bind_run. by rewrite ffmpeg_info_world.
Qed.

(** What [GET /ffmpeg-info] answers.  When the version probe exits 0 the
    later build answers [{success:true, version, configuration, libraries[]}]
    and packages/index.js answers [{success:true, version, fullInfo}]; when it
    exits otherwise both answer 500 [{success:false, error}]; in the later
    build a failed spawn is answered 500 [{success:false, error:<message>}]. *)
Theorem info_answers (b : Build) (data rest : list ChildEvent)
    (code : option Z) (message : string) (w : World) :
  quiet data = true →
  let output := all_text data in
  let lines := Js.split Js.LF output in
  delivered (info_sent (get_ffmpeg_info b (data ++ Close code :: rest) w).1)
  = Some
      (if Js.is_zero code then
         match b with
         | Unnamed =>
             Reply 200
               [("success", JBool true);
                ("version", JStr (default "" (head lines)));
                ("configuration",
                  JStr (Js.or_else
                          (find (λ line, Js.includes "configuration:" line) lines)
                          "Not found"));
                ("libraries",
                  JArr (take 5 (List.filter (λ line, Js.includes "lib" line) lines)))]
         | Packages =>
             Reply 200
               [("success", JBool true);
                ("version", JStr (default "" (head lines)));
                ("fullInfo", JStr output)]
         end
       else
         Reply 500 [("success", JBool false);
                    ("error", JStr "Could not get FFmpeg info")]) ∧
  delivered (info_sent (get_ffmpeg_info Unnamed (data ++ Error message :: rest) w).1)
  = Some (Reply 500 [("success", JBool false); ("error", JStr message)]).
Proof.
  intros Hq. cbn zeta. split.
  - rewrite get_ffmpeg_info_closed by done. by destruct b.
  - by rewrite get_ffmpeg_info_spawn_error.
Qed.

Lemma info_answers_witness :
  delivered (info_sent (get_ffmpeg_info Unnamed [StdoutData banner; Close (Some 0)]
                          disk_with_upload).1)
  = Some (Reply 200
            [("success", JBool true);
             ("version", JStr "ffmpeg version 6.0");
             ("configuration", JStr "configuration: --enable-libx264");
             ("libraries", JArr ["configuration: --enable-libx264";
                                 "libavutil 58. 2.100"])]) ∧
  delivered (info_sent (get_ffmpeg_info Unnamed
                          [StdoutData banner; Error "spawn ffmpeg ENOENT"]
                          disk_with_upload).1)
  = Some (Reply 500 [("success", JBool false); ("error", JStr "spawn ffmpeg ENOENT")]).
Proof.
  exact (info_answers Unnamed [StdoutData banner] [] (Some 0)
           "spawn ffmpeg ENOENT" disk_with_upload eq_refl).
Defined.

(** On packages/index.js the answer to a probe that exits 0 has no
    [configuration] and no [libraries] field. *)
Lemma packages_info_has_no_configuration :
  ∃ r, delivered (info_sent (get_ffmpeg_info Packages
                               [StdoutData banner; Close (Some 0)]
                               disk_with_upload).1) = Some r ∧
       status_of r = 200 ∧
       has_field "configuration" r = false ∧
       has_field "libraries" r = false ∧
       field "fullInfo" r = Some (JStr banner).
Proof. eexists. split; [reflexivity|]. by vm_compute. Qed.

(** C5 on packages/index.js: with the tool binary absent the child emits
    'error', which finds no listener in this build, so the request gets no
    answer at all; the later build answers 500
    [{success:false, error:<spawn error message>}] on the same input. *)
Theorem C5_packages_spawn_error_unanswered :
  let st := (get_ffmpeg_info Packages [Error "spawn ffmpeg ENOENT"] disk_with_upload).1 in
  delivered (info_sent st) = None ∧
  info_uncaught st = ["spawn ffmpeg ENOENT"] ∧
  delivered (info_sent (get_ffmpeg_info Unnamed [Error "spawn ffmpeg ENOENT"]
                          disk_with_upload).1)
  = Some (Reply 500 [("success", JBool false); ("error", JStr "spawn ffmpeg ENOENT")]).
Proof.
  cbn zeta.
  destruct (packages_info_spawn_error_unanswered [] "spawn ffmpeg ENOENT"
              disk_with_upload eq_refl) as [Hsent Huncaught].
  cbn [app] in Hsent, Huncaught. rewrite Hsent, Huncaught.
  split; [done|]. split; [done|].
  apply (get_ffmpeg_info_spawn_error [] "spawn ffmpeg ENOENT" [] disk_with_upload eq_refl).
Qed.

(** ** The diagnostic text of a failed conversion *)

(** In the later build the [details] of a failed conversion are the last five
    lines of what the tool wrote to its diagnostic stream, however much that
    was. *)
Theorem failure_details_bounded (f : UploadedFile) (now : Z)
    (data rest : list ChildEvent) (code : option Z) (w : World) :
  quiet data = true →
  Js.is_zero code = false →
  ∃ details,
    delivered (post_convert Unnamed (Some f) now (data ++ Close code :: rest) w).1
    = Some (Reply 500
              [("success", JBool false);
               ("error", JStr ("Conversion failed with exit code " +:+ Js.show_code code));
               ("details", JStr details)]) ∧
    Js.split Js.LF details = Js.slice_last 5 (Js.split Js.LF (stderr_text data)) ∧
    (line_count details ≤ 5)%nat ∧
    ∃ before, stderr_text data = before +:+ details.
Proof.
  intros Hq Hz.
  exists (Js.join Js.NL (Js.slice_last 5 (Js.split Js.LF (stderr_text data)))).
  split; [|apply details_tail].
  rewrite post_convert_answer by done. by rewrite Hz.
Qed.

Lemma failure_details_bounded_witness :
  ∃ details,
    delivered (post_convert Unnamed (Some upload) 17
                 ([StderrData seven_lines] ++ Close (Some 1) :: []) disk_with_upload).1
    = Some (Reply 500
              [("success", JBool false);
               ("error", JStr ("Conversion failed with exit code " +:+ Js.show_code (Some 1)));
               ("details", JStr details)]) ∧
    Js.split Js.LF details
    = Js.slice_last 5 (Js.split Js.LF (stderr_text [StderrData seven_lines])) ∧
    (line_count details ≤ 5)%nat ∧
    ∃ before, stderr_text [StderrData seven_lines] = before +:+ details.
Proof.
  exact (failure_details_bounded upload 17 [StderrData seven_lines] [] (Some 1)
           disk_with_upload eq_refl eq_refl).
Defined.

(** packages/index.js hands back the whole diagnostic text. *)
Lemma packages_details_whole (f : UploadedFile) (now : Z)
    (data rest : list ChildEvent) (code : option Z) (w : World) :
  quiet data = true →
  Js.is_zero code = false →
  delivered (post_convert Packages (Some f) now (data ++ Close code :: rest) w).1
  = Some (Reply 500
            [("success", JBool false);
             ("error", JStr ("Conversion failed with exit code " +:+ Js.show_code code));
             ("details", JStr (stderr_text data))]).
Proof. intros Hq Hz. rewrite post_convert_answer by done. by rewrite Hz. Qed.

(** C2 on packages/index.js: a tool that writes seven lines and exits with
    code 1 gets all seven lines back in [details]; the later build returns the
    last five of them. *)
Theorem C2_packages_details_not_truncated :
  delivered (post_convert Packages (Some upload) 17
               [StderrData seven_lines; Close (Some 1)] disk_with_upload).1
  = Some (Reply 500
            [("success", JBool false);
             ("error", JStr "Conversion failed with exit code 1");
             ("details", JStr seven_lines)]) ∧
  line_count seven_lines = 7%nat ∧
  field "details"
    (default (Reply 0 [])
       (delivered (post_convert Unnamed (Some upload) 17
                     [StderrData seven_lines; Close (Some 1)] disk_with_upload).1))
  = Some (JStr ("line 3" +:+ Js.NL +:+ "line 4" +:+ Js.NL +:+ "line 5" +:+ Js.NL
                +:+ "line 6" +:+ Js.NL +:+ "line 7")).
Proof. by vm_compute. Qed.

(** ** [GET /download/:filename] *)

Lemma get_download_missing dirname filename transfer w :
  files w !! download_path dirname filename = None →
  get_download dirname filename transfer w
  = ([Reply 404 [("error", JStr "File not found")]], w).
Proof.
  intros Hnone. unfold get_download. rewrite bind_run. unfold existsSync. cbn.
  rewrite Hnone. by rewrite bool_decide_eq_false_2 by (by intros [? ?]).
Qed.

Lemma get_download_found dirname filename transfer w content :
  files w !! download_path dirname filename = Some content →
  get_download dirname filename transfer w
  = ([Download (download_path dirname filename) content transfer],
     match transfer with
     | Some err =>
         mkWorld (files w) (unlinks w) (spawned w) (timers w)
           (console w ++ [Err ["Download error:"; err]])
     | None =>
         mkWorld (files w) (unlinks w) (spawned w)
           (timers w ++ [(1000, DeleteServed (download_path dirname filename))])
           (console w)
     end).
Proof.
  intros Hsome. unfold get_download. rewrite bind_run. unfold existsSync. cbn.
  rewrite Hsome. rewrite bool_decide_eq_true_2 by eauto. cbn.
  destruct transfer; run; by rewrite Hsome.
Qed.

Lemma run_due_world ms pending w :
  let w' := (run_due ms pending w).2 in
  files w' = foldl (λ m p, delete p m) (files w) (due_paths ms pending) ∧
  timers w' = timers w ∧ spawned w' = spawned w.
Proof.
  revert w. induction pending as [|[delay [filePath]] pending IH]; intros w; [done|].
  cbn [run_due due_paths]. destruct (delay <=? ms).
  - rewrite bind_run. cbn zeta in *.
    destruct (IH (run_callback (DeleteServed filePath) w).2) as (-> & -> & ->).
    cbn [foldl]. run. by destruct (files w !! filePath) eqn:E; cbn;
      rewrite ?(delete_id (files w)) by done.
  - rewrite bind_run, ret_run. cbn [snd]. apply IH.
Qed.

Lemma elapse_files ms w :
  files (elapse ms w).2
  = foldl (λ m p, delete p m) (files w) (due_paths ms (timers w)).
Proof.
  unfold elapse.
  pose proof (run_due_world ms (timers w)
                (mkWorld (files w) (unlinks w) (spawned w) [] (console w))) as H.
  cbn zeta in H. destruct H as (Hf & _ & _).
  destruct (run_due ms (timers w) _) as [later w']. cbn in *. done.
Qed.

Lemma lookup_foldl_delete (m : gmap string string) (ps : list string) (p : string) :
  foldl (λ m p, delete p m) m ps !! p = if decide (p ∈ ps) then None else m !! p.
Proof.
  revert m. induction ps as [|q ps IH]; intros m; cbn.
  - by rewrite decide_False by apply not_elem_of_nil.
  - rewrite IH. destruct (decide (p ∈ ps)) as [Hin|Hout].
    + rewrite decide_True; [done|]. by right.
    + destruct (decide (p = q)) as [->|Hne].
      * rewrite decide_True by left. apply lookup_delete_eq.
      * rewrite decide_False; [by apply lookup_delete_ne|].
        by intros [->|?]%elem_of_cons.
Qed.

Lemma due_paths_app ms l1 l2 :
  due_paths ms (l1 ++ l2) = due_paths ms l1 ++ due_paths ms l2.
Proof.
  induction l1 as [|[delay [filePath]] l1 IH]; [done|]. cbn.
  destruct (delay <=? ms); cbn; by rewrite IH.
Qed.

(** The timer callback is best-effort: with the file already gone it only
    writes to the console. *)
Lemma run_callback_gone filePath w :
  files w !! filePath = None →
  let w' := (run_callback (DeleteServed filePath) w).2 in
  files w' = files w ∧ timers w' = timers w ∧
  ∃ e, console w' = console w ++ [Err ["Error deleting file:"; e]].
Proof. intros Hnone. run. rewrite Hnone. cbn. eauto. Qed.

(** C9: a download request whose resolved file is not on disk is answered
    404 with body [{error: "File not found"}]; the world is left as it was, so
    no deletion is scheduled. *)
Theorem C9_missing_file_not_found (dirname filename : string)
    (transfer : option string) (w : World) :
  files w !! download_path dirname filename = None →
  get_download dirname filename transfer w
  = ([Reply 404 [("error", JStr "File not found")]], w) ∧
  timers (get_download dirname filename transfer w).2 = timers w.
Proof. intros Hnone. by rewrite get_download_missing. Qed.

Lemma C9_missing_file_not_found_witness :
  get_download "/srv/app" "nonexistent.mp4" None disk_with_output
  = ([Reply 404 [("error", JStr "File not found")]], disk_with_output) ∧
  timers (get_download "/srv/app" "nonexistent.mp4" None disk_with_output).2
  = timers disk_with_output.
Proof.
  exact (C9_missing_file_not_found "/srv/app" "nonexistent.mp4" None
           disk_with_output eq_refl).
Defined.

(** C10: when the transfer ends with an error no deletion is scheduled and
    the file stays on disk, also as time passes; the delayed unlink is set up
    only when the transfer ends without error. *)
Theorem C10_failed_transfer_keeps_file (dirname filename err : string)
    (content : string) (w : World) :
  files w !! download_path dirname filename = Some content →
  let filePath := download_path dirname filename in
  let w' := (get_download dirname filename (Some err) w).2 in
  timers w' = timers w ∧
  files w' = files w ∧
  unlinks w' = unlinks w ∧
  (∀ ms, filePath ∉ due_paths ms (timers w) →
         files (elapse ms w').2 !! filePath = Some content) ∧
  timers (get_download dirname filename None w).2
  = timers w ++ [(1000, DeleteServed filePath)].
Proof.
  intros Hsome. cbn zeta.
  rewrite !(get_download_found _ _ _ _ _ Hsome). cbn [snd timers files unlinks].
  repeat split.
  intros ms Hdue. rewrite elapse_files, lookup_foldl_delete. cbn [files timers].
  by rewrite decide_False.
Qed.

Lemma C10_failed_transfer_keeps_file_witness :
  let filePath := "/srv/app/uploads/converted_17.mp4" in
  let w' := (get_download "/srv/app" "converted_17.mp4"
               (Some "Request aborted") disk_with_output).2 in
  timers w' = [] ∧
  files w' = files disk_with_output ∧
  unlinks w' = [] ∧
  (∀ ms, filePath ∉ due_paths ms [] →
         files (elapse ms w').2 !! filePath = Some "mp4 bytes") ∧
  timers (get_download "/srv/app" "converted_17.mp4" None disk_with_output).2
  = [(1000, DeleteServed filePath)].
Proof.
  exact (C10_failed_transfer_keeps_file "/srv/app" "converted_17.mp4"
           "Request aborted" "mp4 bytes" disk_with_output eq_refl).
Defined.


(** ** Paths *)

Lemma mentions_app c s1 s2 : mentions c (s1 +:+ s2) = mentions c s1 || mentions c s2.
Proof.
  induction s1 as [|x s1 IH]; [done|].
  rewrite append_cons. cbn. by rewrite IH, orb_assoc.
Qed.

Lemma split_app sep s1 s2 :
  Js.split sep (s1 +:+ String sep s2) = Js.split sep s1 ++ Js.split sep s2.
Proof.
  induction s1 as [|c s1 IH].
  - rewrite append_nil_l. apply split_cons_sep.
  - rewrite append_cons. cbn [Js.split]. rewrite IH.
    destruct (Ascii.eqb c sep); [done|].
    pose proof (split_nonempty sep s1).
    by destruct (Js.split sep s1).
Qed.

(** Decimal numerals hold no path separator. *)
Lemma pretty_N_go_free (x : N) (s : string) :
  mentions Path.SEP s = false → mentions Path.SEP (pretty_N_go x s) = false.
Proof.
  revert s. induction (N.lt_wf_0 x) as [x _ IH]; intros s Hs.
  destruct (decide (x = 0)%N) as [->|Hx].
  - by rewrite pretty_N_go_0.
  - rewrite pretty_N_go_step by lia. apply IH.
    + apply N.div_lt; lia.
    + cbn. rewrite Hs, orb_false_r.
      unfold pretty_N_char. by repeat case_match.
Qed.

Lemma pretty_Z_free (n : Z) : mentions Path.SEP (pretty n) = false.
Proof.
  assert (HN : ∀ x : N, mentions Path.SEP (pretty x) = false).
  { intros x. unfold pretty, pretty_N. case_decide; [done|].
    by apply pretty_N_go_free. }
  destruct n as [|p|p]; [done|apply (HN (N.pos p))|].
  change (pretty (Z.neg p)) with ("-" +:+ pretty (N.pos p)).
  rewrite mentions_app. by rewrite (HN (N.pos p)).
Qed.

(** The name under which a converted file is announced. *)
Lemma basename_outputPath (now : Z) :
  Path.basename (outputPath_at now) = "converted_" +:+ pretty now +:+ ".mp4".
Proof.
  unfold Path.basename, outputPath_at.
  change ("uploads/converted_" +:+ pretty now +:+ ".mp4")
    with ("uploads" +:+ String Path.SEP ("converted_" +:+ pretty now +:+ ".mp4")).
  rewrite split_app.
  rewrite (split_free_id Path.SEP ("converted_" +:+ _)).
  - reflexivity.
  - rewrite !mentions_app, pretty_Z_free. reflexivity.
Qed.

(** With the server's own directory as working directory, the file the tool
    was told to write is the file a download of the announced name serves. *)
Lemma output_served_path (dirname : string) (now : Z) :
  dirname ≠ "" →
  Path.join [dirname; outputPath_at now]
  = download_path dirname (Path.basename (outputPath_at now)).
Proof.
  intros Hd. rewrite basename_outputPath. unfold download_path, Path.join.
  rewrite !filter_cons, !decide_True by done. rewrite filter_nil.
  destruct dirname as [|c d]; [done|].
  cbn [Js.join]. unfold outputPath_at.
  by rewrite !append_cons.
Qed.

Lemma prefix_nil (s : string) : String.prefix "" s = true.
Proof. by destruct s. Qed.

Lemma walk_app a acc l1 l2 :
  Path.walk a acc (l1 ++ l2) = Path.walk a (rev (Path.walk a acc l1)) l2.
Proof.
  revert acc. induction l1 as [|seg l1 IH]; intros acc.
  - cbn. by rewrite rev_involutive.
  - cbn [app Path.walk]. repeat case_match; apply IH.
Qed.

Lemma plain_spec seg :
  plain seg = true →
  seg ≠ "" ∧ seg ≠ "." ∧ seg ≠ ".." ∧ mentions Path.SEP seg = false.
Proof.
  unfold plain. intros [H1 H2]%andb_prop.
  apply negb_true_iff, bool_decide_eq_false in H1.
  apply negb_true_iff in H2. naive_solver.
Qed.

Lemma walk_push a acc seg rest :
  plain seg = true → Path.walk a acc (seg :: rest) = Path.walk a (seg :: acc) rest.
Proof.
  intros (H1 & H2 & H3 & _)%plain_spec. cbn [Path.walk].
  rewrite bool_decide_eq_false_2 by (by intros [?|?]).
  by rewrite bool_decide_eq_false_2 by done.
Qed.

Lemma walk_pop a acc top rest :
  top ≠ ".." → Path.walk a (top :: acc) (".." :: rest) = Path.walk a acc rest.
Proof.
  intros Htop. cbn [Path.walk].
  rewrite bool_decide_eq_false_2 by (by intros [?|?]).
  rewrite bool_decide_eq_true_2 by done.
  by rewrite bool_decide_eq_false_2 by done.
Qed.

Lemma walk_plain a acc segs :
  Forall (λ seg, plain seg = true) segs → Path.walk a acc segs = rev acc ++ segs.
Proof.
  intros Hplain. revert acc.
  induction Hplain as [|seg segs Hseg Hsegs IH]; intros acc.
  - cbn. by rewrite app_nil_r.
  - apply plain_spec in Hseg as (H1 & H2 & H3 & _). cbn [Path.walk].
    rewrite bool_decide_eq_false_2 by (by intros [?|?]).
    rewrite bool_decide_eq_false_2 by done.
    rewrite IH. cbn [rev]. by rewrite <- app_assoc.
Qed.

Lemma plain_free segs :
  Forall (λ seg, plain seg = true) segs →
  Forall (λ seg, mentions Path.SEP seg = false) segs.
Proof.
  intros Hplain. eapply Forall_impl; [exact Hplain|].
  intros seg Hseg. by apply plain_spec in Hseg as (_ & _ & _ & Hfree).
Qed.

(** The segments of an absolute directory name. *)
Lemma split_absolute segs :
  Forall (λ seg, plain seg = true) segs →
  Path.walk false [] (Js.split Path.SEP (absolute segs)) = segs.
Proof.
  intros Hplain. unfold absolute.
  change ("/" +:+ Js.join "/" segs) with (String Path.SEP (Js.join "/" segs)).
  rewrite split_cons_sep. cbn [Path.walk].
  rewrite bool_decide_eq_true_2 by by left.
  destruct segs as [|seg segs]; [done|].
  rewrite split_join; [by rewrite walk_plain|done|by apply plain_free].
Qed.

Lemma join_nonempty sep body x :
  x ≠ "" → Js.join (String sep "") (body ++ [x]) ≠ "".
Proof.
  intros Hx. destruct body as [|y body]; [done|].
  rewrite join_app by done.
  destruct (Js.join (String sep "") (y :: body)); [by rewrite append_nil_l|].
  by rewrite append_cons.
Qed.

(** Normalising a path below an absolute directory: the directory's segments
    stay, the rest is walked on top of them. *)
Lemma normalize_under segs tail :
  Forall (λ seg, plain seg = true) segs →
  tail ≠ [] →
  Forall (λ seg, mentions Path.SEP seg = false) tail →
  (∀ x, last tail = Some x → x ≠ "") →
  Js.join "/" (Path.walk false (rev segs) tail) ≠ "" →
  Path.normalize (absolute segs +:+ "/" +:+ Js.join "/" tail)
  = "/" +:+ Js.join "/" (Path.walk false (rev segs) tail).
Proof.
  intros Hplain Htail Hfree Hlast Hbody. unfold Path.normalize.
  set (p := absolute segs +:+ "/" +:+ Js.join "/" tail).
  assert (Hsplit : Js.split Path.SEP p = Js.split Path.SEP (absolute segs) ++ tail).
  { subst p. change ("/" +:+ Js.join "/" tail) with (String Path.SEP (Js.join "/" tail)).
    rewrite split_app. by rewrite split_join. }
  assert (Hp : p = String Path.SEP (Js.join "/" segs +:+ "/" +:+ Js.join "/" tail))
    by done.
  assert (Habs : Path.isAbsolute p = true).
  { rewrite Hp. unfold Path.isAbsolute. cbn. apply prefix_nil. }
  assert (Hne : p ≠ "") by by rewrite Hp.
  assert (Hend : Path.endsWithSep p = false).
  { unfold Path.endsWithSep. rewrite Hsplit.
    destruct tail as [|t tail _] using rev_ind; [done|].
    rewrite app_assoc, last_snoc. rewrite last_snoc in Hlast.
    destruct t; [by destruct (Hlast "")|done]. }
  rewrite bool_decide_eq_false_2 by done.
  rewrite Habs, Hend, Hsplit. cbn [negb].
  rewrite walk_app, split_absolute by done.
  by rewrite bool_decide_eq_false_2 by done.
Qed.

(** A plain name resolves into the uploads directory ... *)
Lemma download_path_plain segs x :
  Forall (λ seg, plain seg = true) segs → plain x = true →
  download_path (absolute segs) x = absolute (segs ++ ["uploads"; x]).
Proof.
  intros Hplain Hx. pose proof (plain_spec x Hx) as (Hx1 & Hx2 & Hx3 & Hx4).
  unfold download_path, Path.join.
  rewrite !filter_cons, !decide_True by done. rewrite filter_nil.
  change (Js.join "/" [absolute segs; "uploads"; x])
    with (absolute segs +:+ "/" +:+ Js.join "/" ["uploads"; x]).
  assert (Hwalk : Path.walk false (rev segs) ["uploads"; x] = segs ++ ["uploads"; x]).
  { rewrite walk_plain; [by rewrite rev_involutive|]. by repeat constructor. }
  rewrite normalize_under, Hwalk; try done.
  - by repeat constructor.
  - intros y [= <-]. done.
  - rewrite Hwalk. change (segs ++ ["uploads"; x]) with (segs ++ ["uploads"] ++ [x]).
    rewrite app_assoc. by apply join_nonempty.
Qed.

(** ... and a name that starts with a parent-directory segment resolves next
    to it. *)
Lemma download_path_parent segs x :
  Forall (λ seg, plain seg = true) segs → plain x = true →
  download_path (absolute segs) ("../" +:+ x) = absolute (segs ++ [x]).
Proof.
  intros Hplain Hx. pose proof (plain_spec x Hx) as (Hx1 & Hx2 & Hx3 & Hx4).
  unfold download_path, Path.join.
  rewrite !filter_cons, !decide_True by done. rewrite filter_nil.
  change (Js.join "/" [absolute segs; "uploads"; "../" +:+ x])
    with (absolute segs +:+ "/" +:+ Js.join "/" ["uploads"; ".."; x]).
  assert (Hwalk : Path.walk false (rev segs) ["uploads"; ".."; x] = segs ++ [x]).
  { rewrite walk_push, walk_pop, walk_push by done.
    cbn. by rewrite rev_involutive. }
  rewrite normalize_under, Hwalk; try done.
  - by repeat constructor.
  - intros y [= <-]. done.
  - rewrite Hwalk. by apply join_nonempty.
Qed.

Lemma uploads_directory segs :
  Forall (λ seg, plain seg = true) segs →
  Path.join [absolute segs; "uploads"] = absolute (segs ++ ["uploads"]).
Proof.
  intros Hplain. unfold Path.join.
  rewrite !filter_cons, !decide_True by done. rewrite filter_nil.
  change (Js.join "/" [absolute segs; "uploads"])
    with (absolute segs +:+ "/" +:+ Js.join "/" ["uploads"]).
  assert (Hwalk : Path.walk false (rev segs) ["uploads"] = segs ++ ["uploads"]).
  { rewrite walk_push by done. cbn. by rewrite rev_involutive. }
  rewrite normalize_under, Hwalk; try done.
  - by repeat constructor.
  - intros y [= <-]. done.
  - rewrite Hwalk. by apply join_nonempty.
Qed.

Lemma prefix_app (s t : string) : String.prefix s (s +:+ t) = true.
Proof.
  induction s as [|c s IH]; [apply prefix_nil|].
  rewrite append_cons. cbn. by destruct (ascii_dec c c).
Qed.

Lemma prefix_cancel (s a c : string) :
  String.prefix (s +:+ a) (s +:+ c) = String.prefix a c.
Proof.
  induction s as [|x s IH]; [done|].
  rewrite !append_cons. cbn. by destruct (ascii_dec x x).
Qed.

Lemma prefix_mentions (ch : ascii) (a c : string) :
  String.prefix a c = true → mentions ch a = true → mentions ch c = true.
Proof.
  revert c. induction a as [|x a IH]; intros c; [done|].
  destruct c as [|y c]; [done|]. cbn.
  destruct (ascii_dec x y) as [->|]; [|done].
  intros Hp [H|H]%orb_prop; [by rewrite H|]. rewrite (IH c) by done.
  apply orb_true_r.
Qed.

Lemma absolute_snoc segs rest :
  rest ≠ [] → absolute (segs ++ rest) = base segs +:+ Js.join "/" rest.
Proof.
  intros Hrest. unfold absolute, base. destruct segs as [|seg segs]; [done|].
  rewrite join_app by done. by rewrite !append_assoc.
Qed.

(** A plain name stays inside the uploads directory ... *)
Lemma plain_name_inside segs x :
  Forall (λ seg, plain seg = true) segs → plain x = true →
  inside (Path.join [absolute segs; "uploads"]) (download_path (absolute segs) x) = true.
Proof.
  intros Hplain Hx. rewrite uploads_directory, download_path_plain by done.
  unfold inside. rewrite !absolute_snoc by done.
  rewrite append_assoc, prefix_cancel.
  change (Js.join "/" ["uploads"; x]) with ((Js.join "/" ["uploads"] +:+ "/") +:+ x).
  apply prefix_app.
Qed.

(** ... and one behind a parent-directory segment does not. *)
Lemma parent_name_outside segs x :
  Forall (λ seg, plain seg = true) segs → plain x = true →
  inside (Path.join [absolute segs; "uploads"])
         (download_path (absolute segs) ("../" +:+ x)) = false.
Proof.
  intros Hplain Hx. rewrite uploads_directory, download_path_parent by done.
  apply plain_spec in Hx as (_ & _ & _ & Hfree).
  unfold inside. rewrite !absolute_snoc by done.
  rewrite append_assoc, prefix_cancel.
  destruct (String.prefix _ _) eqn:Hp; [|done].
  apply (prefix_mentions Path.SEP) in Hp; [|done].
  cbn [Js.join] in Hp. congruence.
Qed.

(** C8: the served path is the token joined onto [__dirname/uploads], and a
    file found there is served whatever the token looks like; a token that
    starts with a parent-directory segment resolves outside the uploads
    directory, and a file found there is served all the same. *)
Theorem C8_download_path_unchecked (segs : list string) (filename x : string)
    (transfer : option string) (content : string) (w : World) :
  Forall (λ seg, plain seg = true) segs →
  plain x = true →
  let dirname := absolute segs in
  let uploads := Path.join [dirname; "uploads"] in
  download_path dirname filename = Path.join [dirname; "uploads"; filename] ∧
  (files w !! download_path dirname filename = Some content →
   (get_download dirname filename transfer w).1
   = [Download (download_path dirname filename) content transfer]) ∧
  download_path dirname ("../" +:+ x) = absolute (segs ++ [x]) ∧
  inside uploads (download_path dirname ("../" +:+ x)) = false ∧
  (files w !! absolute (segs ++ [x]) = Some content →
   (get_download dirname ("../" +:+ x) transfer w).1
   = [Download (absolute (segs ++ [x])) content transfer]).
Proof.
  intros Hplain Hx dirname uploads. repeat split.
  - intros Hfile. by rewrite (get_download_found _ _ _ _ _ Hfile).
  - by apply download_path_parent.
  - by apply parent_name_outside.
  - intros Hfile. rewrite <- (download_path_parent segs x) in * by done.
    by rewrite (get_download_found _ _ _ _ _ Hfile).
Qed.

Lemma C8_download_path_unchecked_witness :
  let dirname := "/srv/app" in
  let w := mkWorld {[ "/srv/app/index.js" := "const express" ]} [] [] [] [] in
  download_path dirname "converted_17.mp4"
  = Path.join [dirname; "uploads"; "converted_17.mp4"] ∧
  (files w !! download_path dirname "converted_17.mp4" = Some "const express" →
   (get_download dirname "converted_17.mp4" None w).1
   = [Download (download_path dirname "converted_17.mp4") "const express" None]) ∧
  download_path dirname "../index.js" = "/srv/app/index.js" ∧
  inside "/srv/app/uploads" (download_path dirname "../index.js") = false ∧
  (files w !! "/srv/app/index.js" = Some "const express" →
   (get_download dirname "../index.js" None w).1
   = [Download "/srv/app/index.js" "const express" None]).
Proof.
  refine (C8_download_path_unchecked ["srv"; "app"] "converted_17.mp4" "index.js"
            None "const express"
            (mkWorld {[ "/srv/app/index.js" := "const express" ]} [] [] [] [])
            _ eq_refl).
  repeat constructor.
Defined.

(** The traversal at work: the server's own source is handed out. *)
Example traversal_serves_source :
  (get_download "/srv/app" "../index.js" None
     (mkWorld {[ "/srv/app/index.js" := "const express" ]} [] [] [] [])).1
  = [Download "/srv/app/index.js" "const express" None].
Proof. by vm_compute. Qed.


(** Before the timer is due the file is still served. *)
Lemma download_again_before_timer (dirname name bytes : string) (disk : World) (ms : Z) :
  files disk !! download_path dirname name = Some bytes →
  download_path dirname name ∉ due_paths ms (timers disk) →
  ms < 1000 →
  let first := get_download dirname name None disk in
  let later := (elapse ms first.2).2 in
  (get_download dirname name None later).1
  = [Download (download_path dirname name) bytes None].
Proof.
  intros Hfile Hdue Hms first later.
  assert (Hstill : files later !! download_path dirname name = Some bytes).
  { subst later first. rewrite (get_download_found _ _ _ _ _ Hfile). cbn [snd].
    rewrite elapse_files, lookup_foldl_delete. cbn [files timers].
    rewrite due_paths_app. cbn [due_paths].
    rewrite (proj2 (Z.leb_gt 1000 ms)) by done. rewrite app_nil_r.
    by rewrite decide_False. }
  by rewrite (get_download_found _ _ _ _ _ Hstill).
Qed.

Lemma download_again_before_timer_witness :
  let first := get_download "/srv/app" "converted_17.mp4" None disk_with_output in
  let later := (elapse 999 first.2).2 in
  (get_download "/srv/app" "converted_17.mp4" None later).1
  = [Download (download_path "/srv/app" "converted_17.mp4") "mp4 bytes" None].
Proof.
  refine (download_again_before_timer "/srv/app" "converted_17.mp4" "mp4 bytes"
            disk_with_output 999 eq_refl _ eq_refl).
  apply not_elem_of_nil.
Defined.

Lemma output_served_path_witness :
  Path.join ["/srv/app"; outputPath_at 17]
  = download_path "/srv/app" (Path.basename (outputPath_at 17)).
Proof.
  refine (output_served_path "/srv/app" 17 _). discriminate.
Defined.

(** * Further properties of the handlers *)

(** ** The probe and [GET /health] *)

Lemma testFFmpeg_on_frame e st w :
  let w' := (testFFmpeg_on e st w).2 in
  files w' = files w ∧ unlinks w' = unlinks w ∧ timers w' = timers w.
Proof. destruct e as [d|d|code|msg]; run; try done. by destruct (Js.is_zero code). Qed.

Lemma emit_frame {S} (on : ChildEvent → S → M S) :
  (∀ e st w, let w' := (on e st w).2 in
             files w' = files w ∧ unlinks w' = unlinks w ∧ timers w' = timers w) →
  ∀ child st w, let w' := (emit on child st w).2 in
                files w' = files w ∧ unlinks w' = unlinks w ∧ timers w' = timers w.
Proof.
  intros Hon child. induction child as [|e child IH]; intros st w; [done|].
  cbn [emit]. cbn zeta. rewrite bind_run.
  destruct (IH (on e st w).1 (on e st w).2) as (-> & -> & ->).
  apply Hon.
Qed.

Lemma testFFmpeg_on_promise e st w :
  probe_promise (testFFmpeg_on e st w).1
  = if terminal e then settle (probe_promise st) (succeeded e) else probe_promise st.
Proof. destruct e as [d|d|code|msg]; run; try done. by destruct (Js.is_zero code). Qed.

Lemma emit_probe_promise child st w :
  probe_promise (emit testFFmpeg_on child st w).1
  = match probe_promise st with
    | Some v => Some v
    | None => succeeded <$> outcome child
    end.
Proof.
  revert st w. induction child as [|e child IH]; intros st w.
  - cbn. by destruct (probe_promise st).
  - cbn [emit]. rewrite bind_run, IH, testFFmpeg_on_promise.
    unfold outcome. cbn [find].
    destruct (terminal e); [|done].
    by destruct (probe_promise st).
Qed.

(** The promise of [testFFmpeg] resolves when the first terminal event of the
    child is an exit with code 0, rejects when it is any other exit or an
    'error', and stays pending while the child has not ended; a later event
    never changes a settled promise. *)
Theorem testFFmpeg_settles (child : list ChildEvent) (w : World) :
  (testFFmpeg child w).1 = succeeded <$> outcome child.
Proof.
  unfold testFFmpeg. rewrite !bind_run, ret_run. cbn [fst].
  by rewrite emit_probe_promise.
Qed.

(** [GET /health] answers 200 healthy exactly when the probe's first terminal
    event is an exit with code 0, 500 unhealthy for every other way the probe
    ends, and nothing while the probe is running; what the probe printed never
    reaches the answer. *)
Theorem health_answer (b : Build) (timestamp uptime : string)
    (child : list ChildEvent) (w : World) :
  (get_health b timestamp uptime child w).1
  = match outcome child with
    | Some e => [if succeeded e then healthy b timestamp uptime else unhealthy timestamp]
    | None => []
    end.
Proof.
  unfold get_health. rewrite bind_run, testFFmpeg_settles.
  destruct (outcome child) as [e|]; [|done]. cbn. by destruct (succeeded e).
Qed.

Lemma testFFmpeg_frame child w :
  let w' := (testFFmpeg child w).2 in
  files w' = files w ∧ unlinks w' = unlinks w ∧ timers w' = timers w.
Proof.
  unfold testFFmpeg. cbn zeta. rewrite !bind_run, ret_run. cbn [snd].
  by destruct (emit_frame _ testFFmpeg_on_frame child (mkProbe "" None)
                 (spawn "ffmpeg" ["-version"] w).2) as (-> & -> & ->).
Qed.



(** ** What [GET /ffmpeg-info] extracts from the banner *)

Lemma filter_Forall {A} (f : A → bool) (l : list A) :
  Forall (λ x, x ∈ l ∧ f x = true) (List.filter f l).
Proof.
  apply Forall_forall. intros x Hx.
  apply list_elem_of_In, filter_In in Hx as [Hin Hf].
  split; [by apply list_elem_of_In|done].
Qed.

(** In the later build [libraries] holds the first lines of the banner that
    mention [lib], in banner order: five of them when there are five or more,
    all of them otherwise. *)
Theorem info_libraries (output : string) :
  let lines := Js.split Js.LF output in
  let matching := List.filter (λ line, Js.includes "lib" line) lines in
  ∃ libs,
    field "libraries" (info_reply Unnamed output) = Some (JArr libs) ∧
    libs = take 5 matching ∧
    length libs = (5 `min` length matching)%nat ∧
    Forall (λ line, line ∈ lines ∧ Js.includes "lib" line = true) libs.
Proof.
  cbn zeta. eexists. split; [reflexivity|].
  unfold Js.slice_first. split; [done|]. split; [apply length_take|].
  apply Forall_take, filter_Forall.
Qed.

(** In the later build [version] is the banner's first line (the banner up
    to its first line feed, the whole banner when it has none), and
    [configuration] is the first line that mentions [configuration:], or
    [Not found] when no line does. *)
Theorem info_version_configuration (output : string) :
  let lines := Js.split Js.LF output in
  ∃ version configuration more,
    field "version" (info_reply Unnamed output) = Some (JStr version) ∧
    field "configuration" (info_reply Unnamed output) = Some (JStr configuration) ∧
    lines = version :: more ∧
    mentions Js.LF version = false ∧
    String.prefix version output = true ∧
    ((configuration ∈ lines ∧ Js.includes "configuration:" configuration = true) ∨
     (configuration = "Not found" ∧
      Forall (λ line, Js.includes "configuration:" line = false) lines)).
Proof.
  cbn zeta.
  destruct (Js.split Js.LF output) as [|version more] eqn:Hlines.
  { by destruct (split_nonempty Js.LF output). }
  exists version,
    (Js.or_else (find (λ line, Js.includes "configuration:" line) (version :: more))
       "Not found"), more.
  unfold info_reply. rewrite Hlines.
  split; [reflexivity|]. split; [reflexivity|]. split; [done|].
  pose proof (split_free Js.LF output) as Hfree. rewrite Hlines in Hfree.
  split; [by inversion Hfree|]. split.
  - rewrite <- (join_split Js.LF output), Hlines.
    destruct more as [|y more]; [|rewrite join_cons]; apply prefix_app || idtac.
    cbn. rewrite <- (append_nil_r version) at 2. apply prefix_app.
  - destruct (find _ (version :: more)) as [line|] eqn:Hfind.
    + left. apply find_some in Hfind as [Hin Hinc].
      destruct line as [|c line]; [discriminate|]. cbn [Js.or_else].
      split; [by apply list_elem_of_In|done].
    + right. split; [done|]. apply Forall_forall. intros line Hin.
      apply list_elem_of_In in Hin. by apply (find_none _ _ Hfind).
Qed.

(** ** More on [POST /convert] *)

(** A failed conversion whose diagnostic text has at most five lines gets
    that text back unchanged, so on such input the two builds answer alike. *)
Theorem short_details_whole (b : Build) (f : UploadedFile) (now : Z)
    (data rest : list ChildEvent) (code : option Z) (w : World) :
  quiet data = true →
  Js.is_zero code = false →
  (line_count (stderr_text data) ≤ 5)%nat →
  delivered (post_convert b (Some f) now (data ++ Close code :: rest) w).1
  = Some (Reply 500
            [("success", JBool false);
             ("error", JStr ("Conversion failed with exit code " +:+ Js.show_code code));
             ("details", JStr (stderr_text data))]).
Proof.
  intros Hq Hz Hshort. rewrite post_convert_answer by done. rewrite Hz.
  destruct b; [|done]. unfold conversion_failed, Js.slice_last, Js.NL.
  unfold line_count in Hshort.
  replace (length (Js.split Js.LF (stderr_text data)) - 5)%nat with 0%nat by lia.
  by rewrite drop_0, join_split.
Qed.

Lemma short_details_whole_witness :
  delivered (post_convert Unnamed (Some upload) 17
               ([StderrData "Invalid data"; StderrData " found"] ++ Close (Some 1) :: [])
               disk_with_upload).1
  = Some (Reply 500
            [("success", JBool false);
             ("error", JStr ("Conversion failed with exit code " +:+ Js.show_code (Some 1)));
             ("details", JStr (stderr_text [StderrData "Invalid data"; StderrData " found"]))]).
Proof.
  refine (short_details_whole Unnamed upload 17
            [StderrData "Invalid data"; StderrData " found"] [] (Some 1)
            disk_with_upload eq_refl eq_refl _).
  vm_compute. lia.
Defined.

Lemma emit_without_stdout b inputPath outputPath child st w :
  emit (convert_on b inputPath outputPath) (without_stdout child) st w
  = emit (convert_on b inputPath outputPath) child st w.
Proof.
  revert st w. induction child as [|e child IH]; intros st w; [done|].
  destruct e as [d|d|code|msg]; cbn [without_stdout List.filter is_stdout negb].
  - cbn [emit convert_on]. rewrite bind_run, ret_run. apply IH.
  - cbn [emit]. rewrite !bind_run. apply IH.
  - cbn [emit]. rewrite !bind_run. apply IH.
  - cbn [emit]. rewrite !bind_run. apply IH.
Qed.

(** What the tool writes to standard output plays no part in a conversion:
    dropping those events changes neither the answers nor the world. *)
Theorem convert_ignores_stdout (b : Build) (file : option UploadedFile) (now : Z)
    (child : list ChildEvent) (w : World) :
  post_convert b file now (without_stdout child) w = post_convert b file now child w.
Proof.
  destruct file as [f|]; [|done]. unfold post_convert.
  rewrite !bind_run. by rewrite emit_without_stdout.
Qed.



(** A conversion is answered exactly when the child has ended: while the tool
    runs (it may never stop, no timeout is set) the request stays open. *)
Theorem convert_answered_iff_ended (b : Build) (f : UploadedFile) (now : Z)
    (child : list ChildEvent) (w : World) :
  is_Some (delivered (post_convert b (Some f) now child w).1) ↔ ended child = true.
Proof.
  rewrite ended_outcome. destruct (outcome child) as [e|] eqn:Ho.
  - destruct (outcome_split child e Ho) as (data & rest & -> & Hq & He).
    rewrite post_convert_answer by done.
    split; [eauto|]. intros _. destruct e; try discriminate; eauto.
  - rewrite post_convert_pending by done. split; intros [? ?]; discriminate.
Qed.

(** ** Output names *)

Lemma append_length (s t : string) :
  String.length (s +:+ t) = (String.length s + String.length t)%nat.
Proof. induction s as [|c s IH]; [done|]. rewrite append_cons. cbn. by rewrite IH. Qed.

Lemma append_inj_r (s1 s2 t : string) : s1 +:+ t = s2 +:+ t → s1 = s2.
Proof.
  revert s2. induction s1 as [|c s1 IH]; intros s2 Heq.
  - destruct s2 as [|d s2]; [done|].
    apply (f_equal String.length) in Heq.
    rewrite append_nil_l, append_cons in Heq. cbn in Heq.
    rewrite append_length in Heq. lia.
  - destruct s2 as [|d s2].
    + apply (f_equal String.length) in Heq.
      rewrite append_nil_l, append_cons in Heq. cbn in Heq.
      rewrite append_length in Heq. lia.
    + rewrite !append_cons in Heq. injection Heq as -> Heq. f_equal. by apply IH.
Qed.

(** The output of a conversion is named after the clock alone:
    [outputFile] is [converted_<now>.mp4], a single path segment, and two
    conversions get the same output path exactly when they read the same
    [Date.now()], whatever was uploaded. *)
Theorem output_named_by_clock (now1 now2 : Z) :
  Path.basename (outputPath_at now1) = "converted_" +:+ pretty now1 +:+ ".mp4" ∧
  mentions Path.SEP (Path.basename (outputPath_at now1)) = false ∧
  (outputPath_at now1 = outputPath_at now2 ↔ now1 = now2).
Proof.
  split; [apply basename_outputPath|]. split.
  - rewrite basename_outputPath, !mentions_app, pretty_Z_free. reflexivity.
  - split; [|by intros ->]. unfold outputPath_at. intros Heq.
    apply (inj (String.append "uploads/converted_")) in Heq.
    apply append_inj_r in Heq. by apply (inj pretty).
Qed.

(** ** More on [GET /download/:filename] *)

(** A token that is one plain path segment resolves to that name inside the
    uploads directory. *)
Theorem plain_token_stays_inside (segs : list string) (filename : string) :
  Forall (λ seg, plain seg = true) segs →
  plain filename = true →
  download_path (absolute segs) filename = absolute (segs ++ ["uploads"; filename]) ∧
  inside (Path.join [absolute segs; "uploads"])
         (download_path (absolute segs) filename) = true.
Proof.
  intros Hplain Hx. split; [by apply download_path_plain|by apply plain_name_inside].
Qed.

Lemma plain_token_stays_inside_witness :
  download_path "/srv/app" "converted_17.mp4" = "/srv/app/uploads/converted_17.mp4" ∧
  inside (Path.join ["/srv/app"; "uploads"])
         (download_path "/srv/app" "converted_17.mp4") = true.
Proof.
  refine (plain_token_stays_inside ["srv"; "app"] "converted_17.mp4" _ eq_refl).
  repeat constructor.
Defined.

(** Serving a download changes nothing on disk at the time of the request:
    no file is removed or created, [fs.unlink] is not called, nothing is
    spawned; at most one timer is added. *)
Theorem download_frame (dirname filename : string) (transfer : option string)
    (w : World) :
  let w' := (get_download dirname filename transfer w).2 in
  files w' = files w ∧ unlinks w' = unlinks w ∧ spawned w' = spawned w ∧
  (timers w' = timers w ∨
   timers w' = timers w ++ [(1000, DeleteServed (download_path dirname filename))]).
Proof.
  cbn zeta. destruct (files w !! download_path dirname filename) as [content|] eqn:Hf.
  - rewrite (get_download_found _ _ _ _ _ Hf). destruct transfer; cbn; eauto.
  - rewrite (get_download_missing _ _ _ _ Hf). eauto.
Qed.

(** Two downloads of one file that both complete before the deletion is due
    are both served and set two timers; when they fire the file is removed
    once, the second [unlink] fails and is only written to the console. *)
Theorem double_download_removes_once (dirname filename bytes : string)
    (disk : World) (ms : Z) :
  files disk !! download_path dirname filename = Some bytes →
  timers disk = [] →
  1000 ≤ ms →
  let filePath := download_path dirname filename in
  let first := get_download dirname filename None disk in
  let second := get_download dirname filename None first.2 in
  let later := (elapse ms second.2).2 in
  first.1 = [Download filePath bytes None] ∧
  second.1 = [Download filePath bytes None] ∧
  files later = delete filePath (files disk) ∧
  unlinks later = unlinks disk ++ [(filePath, true); (filePath, false)] ∧
  timers later = [] ∧
  ∃ e, console later = console disk ++ [Err ["Error deleting file:"; e]].
Proof.
  intros Hfile Htimers Hms. cbn zeta.
  rewrite (get_download_found _ _ _ _ _ Hfile). cbn [fst snd].
  rewrite (get_download_found dirname filename None _ bytes) by done. cbn [fst snd].
  rewrite Htimers. unfold elapse. cbn [timers app files unlinks spawned console].
  set (p := download_path dirname filename) in *. clearbody p.
  cbn [run_due]. rewrite (proj2 (Z.leb_le 1000 ms)) by done.
  unfold run_callback. run.
  rewrite Hfile. cbn. rewrite lookup_delete_eq. cbn.
  rewrite <- app_assoc. repeat split; eauto.
Qed.

Lemma double_download_removes_once_witness :
  let filePath := "/srv/app/uploads/converted_17.mp4" in
  let first := get_download "/srv/app" "converted_17.mp4" None disk_with_output in
  let second := get_download "/srv/app" "converted_17.mp4" None first.2 in
  let later := (elapse 1000 second.2).2 in
  first.1 = [Download filePath "mp4 bytes" None] ∧
  second.1 = [Download filePath "mp4 bytes" None] ∧
  files later = delete filePath (files disk_with_output) ∧
  unlinks later = unlinks disk_with_output ++ [(filePath, true); (filePath, false)] ∧
  timers later = [] ∧
  ∃ e, console later = console disk_with_output ++ [Err ["Error deleting file:"; e]].
Proof.
  exact (double_download_removes_once "/srv/app" "converted_17.mp4" "mp4 bytes"
           disk_with_output 1000 eq_refl eq_refl (Z.le_refl 1000)).
Defined.

(** ** From a conversion to its download *)





(** ** The probes and the disk *)

(** [testFFmpeg] and [GET /health] never touch the disk, whatever the child
    does: no file is created or removed, [fs.unlink] is not called and no
    timer is set.  The same holds for [GET /ffmpeg-info] on every behaviour
    of the child on which it raises nothing. *)
Theorem probes_leave_disk_alone (b : Build) (timestamp uptime : string)
    (child : list ChildEvent) (w : World) :
  (let w' := (testFFmpeg child w).2 in
   files w' = files w ∧ unlinks w' = unlinks w ∧ timers w' = timers w) ∧
  (let w' := (get_health b timestamp uptime child w).2 in
   files w' = files w ∧ unlinks w' = unlinks w ∧ timers w' = timers w) ∧
  (info_survives b child = true →
   let w' := (get_ffmpeg_info b child w).2 in
   files w' = files w ∧ unlinks w' = unlinks w ∧ timers w' = timers w).
Proof.
  split; [apply testFFmpeg_frame|]. split.
  - cbn zeta. unfold get_health. rewrite bind_run.
    destruct (testFFmpeg_frame child w) as (Hf & Hu & Ht).
    by destruct (testFFmpeg child w).1 as [[|]|].
  - intros _. cbn zeta. unfold get_ffmpeg_info. rewrite bind_run, ffmpeg_info_world. done.
Qed.

Lemma probes_leave_disk_alone_witness :
  let w' := (get_ffmpeg_info Packages [StdoutData banner; Close (Some 0)]
               disk_with_output).2 in
  files w' = files disk_with_output ∧ unlinks w' = unlinks disk_with_output ∧
  timers w' = timers disk_with_output.
Proof.
  exact (proj2 (proj2 (probes_leave_disk_alone Packages "" ""
                         [StdoutData banner; Close (Some 0)] disk_with_output))
           eq_refl).
Defined.

(** ** Startup *)

Lemma testFFmpeg_on_quiet e st w :
  terminal e = false →
  (testFFmpeg_on e st w).2 = w ∧
  probe_promise (testFFmpeg_on e st w).1 = probe_promise st.
Proof. by destruct e. Qed.

Lemma emit_probe_quiet events st w :
  quiet events = true → (emit testFFmpeg_on events st w).2 = w.
Proof.
  revert st w. induction events as [|e events IH]; intros st w Hq; [done|].
  cbn in Hq. apply andb_prop in Hq as [He Hq]. apply negb_true_iff in He.
  cbn [emit]. rewrite bind_run, IH by done.
  by destruct (testFFmpeg_on_quiet e st w He).
Qed.

Lemma emit_settling_quiet data rest st w :
  quiet data = true → probe_promise st = None →
  ∃ st', probe_promise st' = None ∧
         emit_settling (data ++ rest) st w = emit_settling rest st' w.
Proof.
  revert st. induction data as [|e data IH]; intros st Hq Hnone; [by exists st|].
  cbn in Hq. apply andb_prop in Hq as [He Hq]. apply negb_true_iff in He.
  destruct (testFFmpeg_on_quiet e st w He) as [Hw Hp].
  destruct (IH (testFFmpeg_on e st w).1 Hq) as (st' & Hst' & Heq); [congruence|].
  exists st'. split; [done|].
  cbn [app emit_settling]. rewrite bind_run, Hw, Hp, Hnone. exact Heq.
Qed.

Lemma emit_settling_terminal e rest st w :
  terminal e = true → probe_promise st = None →
  emit_settling (e :: rest) st w
  = (((testFFmpeg_on e st w).1, rest), (testFFmpeg_on e st w).2) ∧
  probe_promise (testFFmpeg_on e st w).1 = Some (succeeded e).
Proof.
  intros He Hnone.
  assert (Hp : probe_promise (testFFmpeg_on e st w).1 = Some (succeeded e)).
  { by rewrite testFFmpeg_on_promise, He, Hnone. }
  split; [|done]. cbn [emit_settling]. by rewrite bind_run, Hp.
Qed.

Lemma emit_probe_console events st w :
  ∃ after, console (emit testFFmpeg_on events st w).2 = console w ++ after.
Proof.
  revert st w. induction events as [|e events IH]; intros st w.
  - exists []. cbn. by rewrite app_nil_r.
  - cbn [emit]. rewrite bind_run.
    destruct (IH (testFFmpeg_on e st w).1 (testFFmpeg_on e st w).2) as [after ->].
    assert (∃ one, console (testFFmpeg_on e st w).2 = console w ++ one) as [one ->].
    { destruct e as [d|d|code|msg]; run.
      - exists []. by rewrite app_nil_r.
      - exists []. by rewrite app_nil_r.
      - destruct (Js.is_zero code); run; rewrite <- ?app_assoc; eauto.
      - eauto. }
    exists (one ++ after). by rewrite app_assoc.
Qed.

Lemma emit_probe_world events st w :
  let w' := (emit testFFmpeg_on events st w).2 in
  spawned w' = spawned w ∧ files w' = files w ∧
  unlinks w' = unlinks w ∧ timers w' = timers w.
Proof.
  cbn zeta. split; [apply (emit_spawned _ testFFmpeg_on_spawned)|].
  apply (emit_frame _ testFFmpeg_on_frame).
Qed.

(** The startup callback runs the probe once and only writes to the console:
    disk, unlink log and timers stay as they were, so a failed probe changes
    nothing for later requests.  Right after the probe's first terminal event
    it writes its verdict: the ready message when that event is an exit with
    code 0, the failure message otherwise.  The verdict is the last line when
    the child emits no further terminal event; when the binary is missing
    ('error', then 'close' with a non-zero code) the probe's own
    [FFmpeg test failed] follows it. *)
Theorem startup_reports_probe (b : Build) (env : gmap string string)
    (data rest : list ChildEvent) (e : ChildEvent) (w : World) :
  quiet data = true →
  terminal e = true →
  let w' := (on_listen b env (data ++ e :: rest) w).2 in
  let verdict := if succeeded e then Log [ready_line b] else Err [failed_line b] in
  (∃ before after,
     console w' = before ++ verdict :: after ∧
     (quiet rest = true → after = []) ∧
     (∀ code, rest = [Close code] → Js.is_zero code = false →
              after = [Err ["❌ FFmpeg test failed"]])) ∧
  spawned w' = spawned w ++ [("ffmpeg", ["-version"])] ∧
  files w' = files w ∧ unlinks w' = unlinks w ∧ timers w' = timers w.
Proof.
  intros Hq He. cbn zeta. unfold on_listen. rewrite !bind_run, ret_run. cbn [snd].
  set (w0 := (spawn "ffmpeg" ["-version"] (announce b env w).2).2).
  assert (Hw0 : spawned w0 = spawned w ++ [("ffmpeg", ["-version"])] ∧
                files w0 = files w ∧ unlinks w0 = unlinks w ∧ timers w0 = timers w).
  { subst w0. unfold announce. destruct b; run; [|done].
    by destruct (env !! "RAILWAY_PUBLIC_DOMAIN") as [[|c d]|]. }
  destruct (emit_settling_quiet data (e :: rest) (mkProbe "" None) w0 Hq eq_refl)
    as (st & Hst & ->).
  destruct (emit_settling_terminal e rest st w0 He Hst) as [-> Hp].
  cbn [fst snd]. rewrite Hp.
  set (st1 := (testFFmpeg_on e st w0).1). set (w1 := (testFFmpeg_on e st w0).2).
  assert (Hw1 : spawned w1 = spawned w0 ∧ files w1 = files w0 ∧
                unlinks w1 = unlinks w0 ∧ timers w1 = timers w0).
  { subst w1. split; [apply testFFmpeg_on_spawned|apply testFFmpeg_on_frame]. }
  set (verdict := if succeeded e then Log [ready_line b] else Err [failed_line b]).
  set (w2 := ((if succeeded e then console_log [ready_line b]
               else console_error [failed_line b]) w1).2).
  assert (Hw2 : console w2 = console w1 ++ [verdict] ∧ spawned w2 = spawned w1 ∧
                files w2 = files w1 ∧ unlinks w2 = unlinks w1 ∧ timers w2 = timers w1).
  { subst w2 verdict. by destruct (succeeded e). }
  destruct Hw0 as (Hs0 & Hf0 & Hu0 & Ht0). destruct Hw1 as (Hs1 & Hf1 & Hu1 & Ht1).
  destruct Hw2 as (Hc2 & Hs2 & Hf2 & Hu2 & Ht2).
  destruct (emit_probe_world rest st1 w2) as (Hs3 & Hf3 & Hu3 & Ht3).
  split.
  - destruct (emit_probe_console rest st1 w2) as [after Hafter].
    exists (console w1), after. rewrite Hafter, Hc2, <- app_assoc. split; [done|].
    split.
    + intros Hrest. rewrite (emit_probe_quiet rest st1 w2 Hrest) in Hafter.
      rewrite <- (app_nil_r (console w2)) in Hafter at 1.
      by apply app_inv_head in Hafter.
    + intros code -> Hz. revert Hafter. run. rewrite Hz. run.
      intros Hafter. by apply app_inv_head in Hafter.
  - rewrite Hs3, Hs2, Hs1, Hs0, Hf3, Hf2, Hf1, Hf0, Hu3, Hu2, Hu1, Hu0,
      Ht3, Ht2, Ht1, Ht0. done.
Qed.

Lemma startup_reports_probe_witness :
  let w' := (on_listen Unnamed ∅
               ([] ++ Error "spawn ffmpeg ENOENT" :: [Close (Some (-2))])
               disk_with_upload).2 in
  let verdict := Err [failed_line Unnamed] in
  (∃ before after,
     console w' = before ++ verdict :: after ∧
     (quiet [Close (Some (-2))] = true → after = []) ∧
     (∀ code, [Close (Some (-2))] = [Close code] → Js.is_zero code = false →
              after = [Err ["❌ FFmpeg test failed"]])) ∧
  spawned w' = spawned disk_with_upload ++ [("ffmpeg", ["-version"])] ∧
  files w' = files disk_with_upload ∧ unlinks w' = unlinks disk_with_upload ∧
  timers w' = timers disk_with_upload.
Proof.
  exact (startup_reports_probe Unnamed ∅ [] [Close (Some (-2))]
           (Error "spawn ffmpeg ENOENT") disk_with_upload eq_refl eq_refl).
Defined.

(** The console of a startup without the binary, line by line. *)
Example startup_without_binary :
  console (on_listen Unnamed ∅ [Error "spawn ffmpeg ENOENT"; Close (Some (-2))]
             disk_with_upload).2
  = [Log ["🚀 Server running on port 3000"];
     Log ["📡 Environment: development"];
     Err ["❌ FFmpeg not found:"; "spawn ffmpeg ENOENT"];
     Err ["⚠️  FFmpeg setup failed - video processing will not work"];
     Err ["❌ FFmpeg test failed"]].
Proof. by vm_compute. Qed.
